(** * Label reconciler of the label-manager action ([src/main.ts])

    The action reads a manifest of desired labels, lists the labels of the
    repository and issues create / update / delete calls according to the
    [mode] input.  This development embeds the function [run] of
    [src/main.ts] and proves the properties its specification states.

    Modelling choices.
    - The values returned by [core.getInput] and the parsed manifest are the
      inputs of the model; a manifest field is an optional string ([None] for
      an absent or [null] field), the type the source declares for the
      entries of [fileLabelsMap].
    - The Octokit client is a collaborator: its paginated listing is the
      sequence of pages the iterator yields during the run, and the fate of
      each mutation call is decided by a [service] oracle that sees the calls
      already applied.  A rejected call throws an [Error] (Octokit's
      [RequestError] is one), as does every [throw] of the source.
    - The run is a computation in a state-and-exception monad whose state is
      the trace of observable events (service calls and debug notices).
    - [run] is the run from step 3 on, once the client of steps 1 and 2 has
      been constructed; [run_action] is the whole function, in which the
      construction of the client (lines 14-20) can throw before the manifest
      is read. *)

From Stdlib Require Import String Ascii List Bool Arith Permutation.
Import ListNotations.
Local Open Scope string_scope.
Local Open Scope list_scope.

(** ** JavaScript values *)

(** Truthiness of a string-valued property: [undefined], [null] and the empty
    string are falsy. *)
Definition truthy (v : option string) : bool :=
  match v with
  | Some s => negb (s =? "")
  | None => false
  end.

(** [v || d] *)
Definition js_or (v : option string) (d : string) : string :=
  match v with
  | Some s => if s =? "" then d else s
  | None => d
  end.

(** The double-quote character of the debug notices. *)
Definition dquote : string := String (ascii_of_nat 34) EmptyString.

(** ** Data model *)

(** An element of the manifest array: [{ name, color, description }]. *)
Record manifest_entry : Type := mkEntry {
  me_name : option string;
  me_color : option string;
  me_description : option string
}.

(** A label as listed by the repository; the service reports a missing
    description as [null]. *)
Record repo_label : Type := mkLabel {
  name : string;
  color : string;
  description : option string
}.

(** The values of [fileLabelsMap]: [{ color: string; description?: string }]. *)
Record file_label : Type := mkFileLabel {
  fl_color : string;
  fl_description : string
}.

(** What [fs.existsSync], [fs.readFileSync], [JSON.parse] and [Array.isArray]
    make of the manifest path. *)
Inductive manifest_file : Type :=
| FileMissing
| FileUnparseable (message : string)
| FileNotArray
| FileArray (fileContent : list manifest_entry).

(** The three mutation calls of [octokit.rest.issues]. *)
Inductive call : Type :=
| createLabel (n c d : string)
| updateLabel (n c d : string)
| deleteLabel (n : string).

(** What the paginating iterator yields: pages of labels, until it is
    exhausted or a page request throws. *)
Inductive listing : Type :=
| ListEnd
| ListPage (labels : list repo_label) (rest : listing)
| ListError (message : string).

(** Observable events of a run, oldest first. *)
Inductive event : Type :=
| Applied (c : call)
| Rejected (c : call) (message : string)
| Debug (message : string).

(** A thrown value: an [Error] instance with its message, or anything else. *)
Inductive thrown : Type :=
| JsError (message : string)
| NonError.

(** ** The JavaScript [Map]: keys in insertion order, [set] on a present key
    overwrites the value in place. *)
Module LabelMap.

Definition t : Type := list (string * file_label).

Definition empty : t := [].

Fixpoint set (k : string) (v : file_label) (m : t) : t :=
  match m with
  | [] => [(k, v)]
  | (k', v') :: r => if k' =? k then (k, v) :: r else (k', v') :: set k v r
  end.

Fixpoint get (k : string) (m : t) : option file_label :=
  match m with
  | [] => None
  | (k', v') :: r => if k' =? k then Some v' else get k r
  end.

Definition has (k : string) (m : t) : bool :=
  match get k m with
  | Some _ => true
  | None => false
  end.

Fixpoint delete (k : string) (m : t) : t :=
  match m with
  | [] => []
  | (k', v') :: r => if k' =? k then r else (k', v') :: delete k r
  end.

Definition keys (m : t) : list string := map fst m.

End LabelMap.

(** ** Traces *)

Definition applied_of (e : event) : list call :=
  match e with
  | Applied c => [c]
  | _ => []
  end.

Definition attempted_of (e : event) : list call :=
  match e with
  | Applied c => [c]
  | Rejected c _ => [c]
  | Debug _ => []
  end.

(** The calls the service accepted. *)
Definition applied (tr : list event) : list call := flat_map applied_of tr.

(** The calls sent to the service, accepted or not. *)
Definition attempted (tr : list event) : list call := flat_map attempted_of tr.

Definition is_create (c : call) : bool :=
  match c with createLabel _ _ _ => true | _ => false end.

Definition is_update (c : call) : bool :=
  match c with updateLabel _ _ _ => true | _ => false end.

Definition is_delete (c : call) : bool :=
  match c with deleteLabel _ => true | _ => false end.

Definition call_name (c : call) : string :=
  match c with
  | createLabel n _ _ => n
  | updateLabel n _ _ => n
  | deleteLabel n => n
  end.

(** ** The monad of [run]: a trace as state, thrown values as exceptions *)

Definition action (A : Type) : Type := list event -> list event * (thrown + A).

Definition ret {A : Type} (a : A) : action A := fun tr => (tr, inr a).

Definition throw {A : Type} (e : thrown) : action A := fun tr => (tr, inl e).

Definition bind {A B : Type} (m : action A) (f : A -> action B) : action B :=
  fun tr =>
    match m tr with
    | (tr', inl e) => (tr', inl e)
    | (tr', inr a) => f a tr'
    end.

Notation "x <- m ;; k" := (bind m (fun x => k))
  (at level 61, m at next level, right associativity).
Notation "m ;; k" := (bind m (fun _ => k))
  (at level 61, right associativity).

(** [core.debug] *)
Definition debug (message : string) : action unit :=
  fun tr => (tr ++ [Debug message], inr tt).

(** Outcome of a run: the message given to [core.setFailed], if any, and the
    trace. *)
Record outcome : Type := mkOutcome {
  failed : option string;
  trace : list event
}.

(** ** [run] *)

Definition validation_message : string :=
  "Each label must have at least a name and a color.".

Definition not_array_message : string :=
  "Manifest file is not properly formatted. It should be an array of label objects.".

(** Step 4: the loop that validates the entries and fills [fileLabelsMap]. *)
Fixpoint build_map (fileContent : list manifest_entry) (fileLabelsMap : LabelMap.t)
  : thrown + LabelMap.t :=
  match fileContent with
  | [] => inr fileLabelsMap
  | label :: rest =>
      match me_name label, me_color label with
      | Some n, Some c =>
          if negb (truthy (Some n)) || negb (truthy (Some c))
          then inl (JsError validation_message)
          else build_map rest
                 (LabelMap.set n
                    (mkFileLabel c (js_or (me_description label) ""))
                    fileLabelsMap)
      | _, _ => inl (JsError validation_message)
      end
  end.

(** Line 15: [core.getInput('mode') || 'update']. *)
Definition mode_of (mode_input : string) : string :=
  js_or (Some mode_input) "update".

(** The notices given to [core.debug]. *)
Definition updated_note (n : string) : string :=
  "Label " ++ dquote ++ n ++ dquote ++ " has been updated.".

Definition up_to_date_note (n : string) : string :=
  "Label " ++ dquote ++ n ++ dquote ++ " is already up to date.".

Definition created_note (n : string) : string :=
  "Label " ++ dquote ++ n ++ dquote ++ " has been created.".

(** The test of lines 72-73: the colors differ, or the descriptions with a
    missing one read as the empty string. *)
Definition differs (label : repo_label) (fileLabel : file_label) : bool :=
  negb (color label =? fl_color fileLabel)
  || negb (js_or (description label) ""
           =? js_or (Some (fl_description fileLabel)) "").

Section Run.

(** [service applied c] is [Some message] when the service rejects call [c]
    after the calls [applied] went through. *)
Variable service : list call -> call -> option string.

(** An awaited mutation call. *)
Definition octokit (c : call) : action unit :=
  fun tr =>
    match service (applied tr) c with
    | Some message => (tr ++ [Rejected c message], inl (JsError message))
    | None => (tr ++ [Applied c], inr tt)
    end.

(** The body of the inner loop of step 5, for one listed label; the lookup
    stands for [fileLabelsMap.has] followed by [fileLabelsMap.get]. *)
Definition on_label (mode : string) (label : repo_label) (fileLabelsMap : LabelMap.t)
  : action LabelMap.t :=
  if mode =? "update" then
    match LabelMap.get (name label) fileLabelsMap with
    | Some fileLabel =>
        (if differs label fileLabel
         then
           octokit (updateLabel (name label) (fl_color fileLabel)
                      (fl_description fileLabel)) ;;
           debug (updated_note (name label))
         else
           debug (up_to_date_note (name label))) ;;
        ret (LabelMap.delete (name label) fileLabelsMap)
    | None => ret fileLabelsMap
    end
  else
    octokit (deleteLabel (name label)) ;;
    ret fileLabelsMap.

(** [for (const label of labels)] *)
Fixpoint on_page (mode : string) (labels : list repo_label) (fileLabelsMap : LabelMap.t)
  : action LabelMap.t :=
  match labels with
  | [] => ret fileLabelsMap
  | label :: rest =>
      m <- on_label mode label fileLabelsMap ;;
      on_page mode rest m
  end.

(** [for await (const { data: labels } of iterator)] *)
Fixpoint on_listing (mode : string) (iterator : listing) (fileLabelsMap : LabelMap.t)
  : action LabelMap.t :=
  match iterator with
  | ListEnd => ret fileLabelsMap
  | ListPage labels rest =>
      m <- on_page mode labels fileLabelsMap ;;
      on_listing mode rest m
  | ListError message => throw (JsError message)
  end.

(** Step 6: [for (const [name, label] of fileLabelsMap)]. *)
Fixpoint create_all (entries : LabelMap.t) : action unit :=
  match entries with
  | [] => ret tt
  | (n, label) :: rest =>
      octokit (createLabel n (fl_color label) (fl_description label)) ;;
      debug (created_note n) ;;
      create_all rest
  end.

(** The [try] block from step 3 on, once the client of steps 1 and 2 exists
    (the whole block is [action_body] below).  [mode_input] is
    [core.getInput('mode')], [manifestPath] the resolved manifest path. *)
Definition run_body (mode_input manifestPath : string) (file : manifest_file)
    (iterator : listing) : action unit :=
  let mode := mode_of mode_input in
  match file with
  | FileMissing =>
      throw (JsError ("Manifest file not found at path: " ++ manifestPath))
  | FileUnparseable message => throw (JsError message)
  | FileNotArray => throw (JsError not_array_message)
  | FileArray fileContent =>
      match build_map fileContent LabelMap.empty with
      | inl e => throw e
      | inr fileLabelsMap =>
          m <- (if negb (mode =? "add")
                then on_listing mode iterator fileLabelsMap
                else ret fileLabelsMap) ;;
          create_all m
      end
  end.

(** [run]: the [try] block and its [catch] handler. *)
Definition run (mode_input manifestPath : string) (file : manifest_file)
    (iterator : listing) : outcome :=
  match run_body mode_input manifestPath file iterator [] with
  | (tr, inr _) => mkOutcome None tr
  | (tr, inl (JsError message)) => mkOutcome (Some message) tr
  | (tr, inl NonError) => mkOutcome None tr
  end.

End Run.

(** ** Steps 1 and 2: the inputs and the client *)

(** The message of the error [github.getOctokit] throws when the token is
    empty. *)
Definition token_message : string := "Parameter token or opts.auth is required".

(** What [github.context.repo] yields: the owner and the name of the
    repository, or the error it throws when the workflow context names no
    repository. *)
Inductive repo_context : Type :=
| RepoKnown (owner repo : string)
| RepoUnknown (message : string).

(** The whole [try] block: the inputs are read, [github.getOctokit(token)]
    and [github.context.repo] are evaluated (lines 14-20), then the manifest
    is read and the labels are reconciled. *)
Definition action_body (service : list call -> call -> option string)
    (token : string) (context : repo_context)
    (mode_input manifestPath : string) (file : manifest_file) (iterator : listing)
  : action unit :=
  if token =? "" then throw (JsError token_message)
  else
    match context with
    | RepoUnknown message => throw (JsError message)
    | RepoKnown _ _ => run_body service mode_input manifestPath file iterator
    end.

(** The whole function: [action_body] and the [catch] handler. *)
Definition run_action (service : list call -> call -> option string)
    (token : string) (context : repo_context)
    (mode_input manifestPath : string) (file : manifest_file) (iterator : listing)
  : outcome :=
  match action_body service token context mode_input manifestPath file iterator [] with
  | (tr, inr _) => mkOutcome None tr
  | (tr, inl (JsError message)) => mkOutcome (Some message) tr
  | (tr, inl NonError) => mkOutcome None tr
  end.

(** A service that accepts every call. *)
Definition accept_all : list call -> call -> option string := fun _ _ => None.

(** A listing that yields the given pages and ends. *)
Fixpoint of_pages (pages : list (list repo_label)) : listing :=
  match pages with
  | [] => ListEnd
  | p :: rest => ListPage p (of_pages rest)
  end.

(** The labels a listing yields before it ends or throws. *)
Fixpoint listed (iterator : listing) : list repo_label :=
  match iterator with
  | ListEnd => []
  | ListPage labels rest => labels ++ listed rest
  | ListError _ => []
  end.

(** ** Planned effects

    The effects of the loops do not depend on what the service answers, only
    on whether it throws; so a run is the sequential execution of a list of
    steps that can be computed beforehand. *)

Inductive step : Type :=
| Call (c : call)
| Note (message : string).

Definition event_of (s : step) : event :=
  match s with
  | Call c => Applied c
  | Note message => Debug message
  end.

Definition calls_of (s : step) : list call :=
  match s with
  | Call c => [c]
  | Note _ => []
  end.

Definition calls (steps : list step) : list call := flat_map calls_of steps.

(** The steps of the loop body for one label, and the map it leaves. *)
Definition label_plan (mode : string) (label : repo_label) (m : LabelMap.t)
  : list step * LabelMap.t :=
  if mode =? "update" then
    match LabelMap.get (name label) m with
    | Some fileLabel =>
        ((if differs label fileLabel
          then [Call (updateLabel (name label) (fl_color fileLabel)
                        (fl_description fileLabel));
                Note (updated_note (name label))]
          else [Note (up_to_date_note (name label))]),
         LabelMap.delete (name label) m)
    | None => ([], m)
    end
  else ([Call (deleteLabel (name label))], m).

Fixpoint page_plan (mode : string) (labels : list repo_label) (m : LabelMap.t)
  : list step * LabelMap.t :=
  match labels with
  | [] => ([], m)
  | label :: rest =>
      let (s1, m1) := label_plan mode label m in
      let (s2, m2) := page_plan mode rest m1 in
      (s1 ++ s2, m2)
  end.

Fixpoint listing_plan (mode : string) (iterator : listing) (m : LabelMap.t)
  : list step * (thrown + LabelMap.t) :=
  match iterator with
  | ListEnd => ([], inr m)
  | ListPage labels rest =>
      let (s1, m1) := page_plan mode labels m in
      let (s2, r) := listing_plan mode rest m1 in
      (s1 ++ s2, r)
  | ListError message => ([], inl (JsError message))
  end.

Definition create_call (entry : string * file_label) : call :=
  createLabel (fst entry) (fl_color (snd entry)) (fl_description (snd entry)).

Definition create_plan (m : LabelMap.t) : list step :=
  flat_map (fun entry => [Call (create_call entry); Note (created_note (fst entry))]) m.

(** The steps of a whole run and the value thrown after them, if any. *)
Definition plan (mode_input manifestPath : string) (file : manifest_file)
    (iterator : listing) : list step * option thrown :=
  let mode := mode_of mode_input in
  match file with
  | FileMissing =>
      ([], Some (JsError ("Manifest file not found at path: " ++ manifestPath)))
  | FileUnparseable message => ([], Some (JsError message))
  | FileNotArray => ([], Some (JsError not_array_message))
  | FileArray fileContent =>
      match build_map fileContent LabelMap.empty with
      | inl e => ([], Some e)
      | inr m =>
          if negb (mode =? "add") then
            match listing_plan mode iterator m with
            | (s, inl e) => (s, Some e)
            | (s, inr m') => (s ++ create_plan m', None)
            end
          else (create_plan m, None)
      end
  end.

Section Exec.

Variable service : list call -> call -> option string.

(** Sequential execution of planned steps. *)
Fixpoint exec (steps : list step) : action unit :=
  match steps with
  | [] => ret tt
  | Call c :: rest => octokit service c ;; exec rest
  | Note message :: rest => debug message ;; exec rest
  end.

Definition finish (e : option thrown) : action unit :=
  match e with
  | Some v => throw v
  | None => ret tt
  end.

End Exec.

(** The message the [catch] handler passes on. *)
Definition message_of (e : option thrown) : option string :=
  match e with
  | Some (JsError message) => Some message
  | _ => None
  end.

(** ** Notions used in the statements *)

(** An entry passes the test of line 44. *)
Definition valid_entry (e : manifest_entry) : bool :=
  truthy (me_name e) && truthy (me_color e).

(** The value stored for an entry. *)
Definition entry_value (e : manifest_entry) : file_label :=
  mkFileLabel (js_or (me_color e) "") (js_or (me_description e) "").

Definition set_entry (m : LabelMap.t) (e : manifest_entry) : LabelMap.t :=
  LabelMap.set (js_or (me_name e) "") (entry_value e) m.

(** Order-preserving sublists. *)
Inductive subsequence {A : Type} : list A -> list A -> Prop :=
| sub_nil : subsequence [] []
| sub_skip (x : A) (s l : list A) : subsequence s l -> subsequence s (x :: l)
| sub_keep (x : A) (s l : list A) : subsequence s l -> subsequence (x :: s) (x :: l).

#[local] Hint Constructors subsequence : core.

(** The map after the pass in update mode: the listed names are removed. *)
Definition delete_listed (m : LabelMap.t) (labels : list repo_label) : LabelMap.t :=
  fold_left (fun m' l => LabelMap.delete (name l) m') labels m.

(** The delete call sent for a listed label. *)
Definition delete_call (l : repo_label) : call := deleteLabel (name l).

Definition is_rejected (e : event) : bool :=
  match e with Rejected _ _ => true | _ => false end.

(** A service that rejects the second call it receives. *)
Definition reject_second : list call -> call -> option string :=
  fun done _ => if Nat.eqb (List.length done) 1 then Some "Validation Failed" else None.

(** The label set of the repository: what the service does to it when it
    accepts a call.  A created label is added, an update replaces the color
    and description of the label of that name, a delete removes it. *)
Definition apply_call (c : call) (labels : list repo_label) : list repo_label :=
  match c with
  | createLabel n col d => labels ++ [mkLabel n col (Some d)]
  | updateLabel n col d =>
      map (fun l => if name l =? n then mkLabel n col (Some d) else l) labels
  | deleteLabel n => filter (fun l => negb (name l =? n)) labels
  end.

Definition apply_calls (cs : list call) (labels : list repo_label) : list repo_label :=
  fold_left (fun ls c => apply_call c ls) cs labels.

Definition named (n : string) (l : repo_label) : bool := name l =? n.

(** A description with the missing one read as the empty string. *)
Definition normalized (d : option string) : string :=
  match d with
  | Some s => s
  | None => ""
  end.

(** The listed label and the desired one differ in color or in normalized
    description. *)
Definition fields_differ (label : repo_label) (fileLabel : file_label) : Prop :=
  color label <> fl_color fileLabel
  \/ normalized (description label) <> fl_description fileLabel.

(** The effect of an accepted update call on one label. *)
Definition touch (c : call) (l : repo_label) : repo_label :=
  match c with
  | updateLabel n col d => if name l =? n then mkLabel n col (Some d) else l
  | _ => l
  end.

Definition touch_all (cs : list call) (l : repo_label) : repo_label :=
  fold_left (fun l' c => touch c l') cs l.

(** The label the service holds after a create call. *)
Definition created_label (entry : string * file_label) : repo_label :=
  mkLabel (fst entry) (fl_color (snd entry)) (Some (fl_description (snd entry))).

(** What a listing shows of a label, the missing description read as the
    empty one. *)
Definition shown (l : repo_label) : string * string * string :=
  (name l, color l, normalized (description l)).

(** The labels [labels] agree with the desired map [m]: every label whose name
    is a key carries the desired color and description, and every key is the
    name of a label. *)
Definition settled (m : LabelMap.t) (labels : list repo_label) : Prop :=
  (forall x fl, In x labels -> LabelMap.get (name x) m = Some fl -> differs x fl = false)
  /\ (forall k, In k (LabelMap.keys m) -> In k (map name labels)).

(** ** Notions used for the further properties *)

(** The message of the error a listing ends with, if it ends with one. *)
Fixpoint listing_error (iterator : listing) : option string :=
  match iterator with
  | ListEnd => None
  | ListPage _ rest => listing_error rest
  | ListError message => Some message
  end.

(** The names of the manifest entries, in manifest order. *)
Definition entry_names (fileContent : list manifest_entry) : list string :=
  flat_map (fun e => match me_name e with Some n => [n] | None => [] end) fileContent.

(** A list of names with every repetition after the first removed. *)
Fixpoint first_occurrences (names : list string) : list string :=
  match names with
  | [] => []
  | n :: rest => n :: filter (fun n' => negb (n' =? n)) (first_occurrences rest)
  end.

(** [n] is a key of [m]. *)
Definition is_key (m : LabelMap.t) (n : string) : bool :=
  existsb (String.eqb n) (LabelMap.keys m).

(** The notice the source gives after a call, if it gives one. *)
Definition notice_of (c : call) : option string :=
  match c with
  | createLabel n _ _ => Some (created_note n)
  | updateLabel n _ _ => Some (updated_note n)
  | deleteLabel _ => None
  end.

(** In the trace [tr], read with the notice [pending] still due, every
    applied call that has a notice is directly followed by it. *)
Fixpoint noticed_from (pending : option string) (tr : list event) : Prop :=
  match tr with
  | [] => pending = None
  | e :: rest =>
      match pending, e with
      | Some note, Debug message => message = note /\ noticed_from None rest
      | Some _, _ => False
      | None, Applied c => noticed_from (notice_of c) rest
      | None, _ => noticed_from None rest
      end
  end.

(** * Properties *)

(** ** The scenarios of the specification *)

Example scenario_up_to_date :
  applied (trace (run accept_all "update" "labels.json"
    (FileArray [mkEntry (Some "bug") (Some "ff0000") (Some "");
                mkEntry (Some "feature") (Some "00ff00") None])
    (of_pages [[mkLabel "bug" "ff0000" None]])))
  = [createLabel "feature" "00ff00" ""].
Proof. reflexivity. Qed.

Example scenario_recolor :
  applied (trace (run accept_all "update" "labels.json"
    (FileArray [mkEntry (Some "bug") (Some "00ff00") None])
    (of_pages [[mkLabel "bug" "ff0000" None]])))
  = [updateLabel "bug" "00ff00" ""].
Proof. reflexivity. Qed.

Example scenario_delete_all :
  applied (trace (run accept_all "delete" "labels.json"
    (FileArray [])
    (of_pages [[mkLabel "bug" "ff0000" None; mkLabel "wontfix" "ffffff" None]])))
  = [deleteLabel "bug"; deleteLabel "wontfix"].
Proof. reflexivity. Qed.

(** ** The run as the execution of its plan *)

Section ExecPlan.

Variable service : list call -> call -> option string.

Lemma exec_app (s1 s2 : list step) (tr : list event) :
  exec service (s1 ++ s2) tr = (exec service s1 ;; exec service s2) tr.
Proof.
  revert tr. induction s1 as [|[c|msg] s1 IH]; intros tr; simpl.
  - reflexivity.
  - unfold bind in *. destruct (octokit service c tr) as [tr' [e|[]]].
    + reflexivity.
    + apply IH.
  - unfold bind in *. unfold debug. apply IH.
Qed.

Lemma on_label_plan (mode : string) (label : repo_label) (m : LabelMap.t)
    (tr : list event) :
  on_label service mode label m tr
  = (exec service (fst (label_plan mode label m)) ;; ret (snd (label_plan mode label m))) tr.
Proof.
  unfold on_label, label_plan.
  destruct (mode =? "update").
  - destruct (LabelMap.get (name label) m) as [fileLabel|]; [|reflexivity].
    fold (differs label fileLabel). fold (updated_note (name label)).
    fold (up_to_date_note (name label)).
    destruct (differs label fileLabel); simpl; unfold bind, debug, ret.
    + destruct (octokit service _ tr) as [tr' [e|[]]]; reflexivity.
    + reflexivity.
  - simpl. unfold bind, ret.
    destruct (octokit service _ tr) as [tr' [e|[]]]; reflexivity.
Qed.

Lemma on_page_plan (mode : string) (labels : list repo_label) (m : LabelMap.t)
    (tr : list event) :
  on_page service mode labels m tr
  = (exec service (fst (page_plan mode labels m)) ;; ret (snd (page_plan mode labels m))) tr.
Proof.
  revert m tr. induction labels as [|label rest IH]; intros m tr; simpl.
  - reflexivity.
  - unfold bind at 1. rewrite on_label_plan.
    destruct (label_plan mode label m) as [s1 m1] eqn:E1.
    destruct (page_plan mode rest m1) as [s2 m2] eqn:E2. simpl.
    unfold bind. rewrite exec_app. unfold bind.
    destruct (exec service s1 tr) as [tr1 [e|[]]]; simpl.
    + reflexivity.
    + unfold ret at 1. rewrite IH, E2. reflexivity.
Qed.

Lemma on_listing_plan (mode : string) (iterator : listing) (m : LabelMap.t)
    (tr : list event) :
  on_listing service mode iterator m tr
  = (exec service (fst (listing_plan mode iterator m)) ;;
     match snd (listing_plan mode iterator m) with
     | inl e => throw e
     | inr m' => ret m'
     end) tr.
Proof.
  revert m tr. induction iterator as [|labels rest IH|message]; intros m tr; simpl.
  - reflexivity.
  - unfold bind at 1. rewrite on_page_plan.
    destruct (page_plan mode labels m) as [s1 m1] eqn:E1.
    destruct (listing_plan mode rest m1) as [s2 r] eqn:E2. simpl.
    unfold bind. rewrite exec_app. unfold bind.
    destruct (exec service s1 tr) as [tr1 [e|[]]]; simpl.
    + reflexivity.
    + unfold ret at 1. rewrite IH, E2. reflexivity.
  - reflexivity.
Qed.

Lemma create_all_plan (m : LabelMap.t) (tr : list event) :
  create_all service m tr = exec service (create_plan m) tr.
Proof.
  revert tr. induction m as [|[n label] rest IH]; intros tr; simpl.
  - reflexivity.
  - fold (created_note n). unfold bind, debug.
    destruct (octokit service _ tr) as [tr' [e|[]]]; [reflexivity|].
    apply IH.
Qed.

(** The run is the execution of its plan. *)
Lemma run_body_plan (mode_input manifestPath : string) (file : manifest_file)
    (iterator : listing) (tr : list event) :
  run_body service mode_input manifestPath file iterator tr
  = (exec service (fst (plan mode_input manifestPath file iterator)) ;;
     finish (snd (plan mode_input manifestPath file iterator))) tr.
Proof.
  unfold run_body, plan.
  destruct file as [| message | | fileContent]; try reflexivity.
  destruct (build_map fileContent LabelMap.empty) as [e|m]; [reflexivity|].
  destruct (negb (mode_of mode_input =? "add")).
  - unfold bind at 1. rewrite on_listing_plan.
    destruct (listing_plan _ iterator m) as [s [e|m']]; simpl.
    + unfold bind. destruct (exec service s tr) as [tr1 [e1|[]]]; reflexivity.
    + unfold bind. rewrite exec_app. unfold bind, ret.
      destruct (exec service s tr) as [tr1 [e1|[]]]; simpl.
      * reflexivity.
      * rewrite create_all_plan.
        destruct (exec service (create_plan m') tr1) as [tr2 [e2|[]]]; reflexivity.
  - unfold bind at 1. unfold ret at 1. rewrite create_all_plan.
    simpl. unfold bind, ret.
    destruct (exec service (create_plan m) tr) as [tr2 [e2|[]]]; reflexivity.
Qed.

End ExecPlan.

(** ** Facts about traces and execution *)

Lemma applied_app (t1 t2 : list event) : applied (t1 ++ t2) = applied t1 ++ applied t2.
Proof. apply flat_map_app. Qed.

Lemma attempted_app (t1 t2 : list event) :
  attempted (t1 ++ t2) = attempted t1 ++ attempted t2.
Proof. apply flat_map_app. Qed.

Lemma calls_app (s1 s2 : list step) : calls (s1 ++ s2) = calls s1 ++ calls s2.
Proof. apply flat_map_app. Qed.

Lemma applied_events (s : list step) : applied (map event_of s) = calls s.
Proof.
  induction s as [|[c|msg] s IH]; simpl; [reflexivity| |assumption].
  now rewrite <- IH.
Qed.

Lemma attempted_events (s : list step) : attempted (map event_of s) = calls s.
Proof.
  induction s as [|[c|msg] s IH]; simpl; [reflexivity| |assumption].
  now rewrite <- IH.
Qed.

Section ExecFacts.

Variable service : list call -> call -> option string.

(** Either every step goes through, or the service rejects one call and the
    execution stops there. *)
Lemma exec_cases (steps : list step) (tr : list event) :
  exec service steps tr = (tr ++ map event_of steps, inr tt)
  \/ exists pre c post message,
       steps = pre ++ Call c :: post
       /\ service (applied (tr ++ map event_of pre)) c = Some message
       /\ exec service steps tr
          = (tr ++ map event_of pre ++ [Rejected c message], inl (JsError message)).
Proof.
  revert tr. induction steps as [|[c|msg] steps IH]; intros tr; simpl.
  - left. unfold ret. now rewrite app_nil_r.
  - unfold bind, octokit.
    destruct (service (applied tr) c) as [message|] eqn:E.
    + right. exists [], c, steps, message. simpl.
      rewrite app_nil_r. auto.
    + destruct (IH (tr ++ [Applied c])) as [H | (pre & c' & post & message & H1 & H2 & H3)].
      * left. rewrite H, <- app_assoc. reflexivity.
      * right. exists (Call c :: pre), c', post, message. simpl.
        rewrite <- app_assoc in H2, H3. simpl in H2, H3.
        subst steps. auto.
  - unfold bind, debug.
    destruct (IH (tr ++ [Debug msg])) as [H | (pre & c' & post & message & H1 & H2 & H3)].
    + left. rewrite H, <- app_assoc. reflexivity.
    + right. exists (Note msg :: pre), c', post, message. simpl.
      rewrite <- app_assoc in H2, H3. simpl in H2, H3.
      subst steps. auto.
Qed.

End ExecFacts.

Lemma exec_accept_all (steps : list step) (tr : list event) :
  exec accept_all steps tr = (tr ++ map event_of steps, inr tt).
Proof.
  destruct (exec_cases accept_all steps tr)
    as [H | (pre & c & post & message & _ & H & _)]; [assumption|discriminate].
Qed.

Lemma build_map_throws (fileContent : list manifest_entry) (m : LabelMap.t) (e : thrown) :
  build_map fileContent m = inl e -> e = JsError validation_message.
Proof.
  revert m. induction fileContent as [|label rest IH]; intros m; simpl; [discriminate|].
  destruct (me_name label) as [n|], (me_color label) as [c|];
    try (now intros [= <-]).
  match goal with |- context [if ?b then _ else _] => destruct b end;
    [now intros [= <-]|].
  apply IH.
Qed.

Lemma listing_plan_throws (mode : string) (iterator : listing) (m : LabelMap.t)
    (s : list step) (e : thrown) :
  listing_plan mode iterator m = (s, inl e) -> exists message, e = JsError message.
Proof.
  revert m s. induction iterator as [|labels rest IH|message]; intros m s; simpl.
  - discriminate.
  - destruct (page_plan mode labels m) as [s1 m1].
    destruct (listing_plan mode rest m1) as [s2 r] eqn:E.
    intros [= <- ->]. eapply IH, E.
  - intros [= <- <-]. now exists message.
Qed.

Lemma plan_throws (mode_input manifestPath : string) (file : manifest_file)
    (iterator : listing) (e : thrown) :
  snd (plan mode_input manifestPath file iterator) = Some e ->
  exists message, e = JsError message.
Proof.
  unfold plan. destruct file as [| message | | fileContent]; simpl;
    try (intros [= <-]; eexists; reflexivity).
  destruct (build_map fileContent LabelMap.empty) as [e'|m] eqn:E; simpl.
  - intros [= <-]. apply build_map_throws in E. eauto.
  - destruct (negb _); [|discriminate].
    destruct (listing_plan _ iterator m) as [s [e'|m']] eqn:E'; simpl; [|discriminate].
    intros [= <-]. eapply listing_plan_throws, E'.
  Qed.

(** The two ways a run can go: all planned steps are applied, and the run
    fails only if the plan ends with a throw; or the service rejects a call,
    which ends the run. *)
Lemma run_cases (service : list call -> call -> option string)
    (mode_input manifestPath : string) (file : manifest_file) (iterator : listing) :
  let p := plan mode_input manifestPath file iterator in
  let o := run service mode_input manifestPath file iterator in
  (trace o = map event_of (fst p) /\ failed o = message_of (snd p))
  \/ exists pre c post message,
       fst p = pre ++ Call c :: post
       /\ service (calls pre) c = Some message
       /\ trace o = map event_of pre ++ [Rejected c message]
       /\ failed o = Some message.
Proof.
  intros p o. subst o. unfold run. rewrite run_body_plan. fold p.
  unfold bind.
  destruct (exec_cases service (fst p) [])
    as [H | (pre & c & post & message & H1 & H2 & H3)].
  - left. rewrite H. simpl.
    destruct (snd p) as [e|] eqn:E; simpl.
    + destruct (plan_throws _ _ _ _ _ E) as [message ->]. simpl. auto.
    + auto.
  - right. exists pre, c, post, message. rewrite H3. simpl in *.
    rewrite applied_events in H2. auto.
Qed.

Lemma run_accept_all (mode_input manifestPath : string) (file : manifest_file)
    (iterator : listing) :
  let p := plan mode_input manifestPath file iterator in
  let o := run accept_all mode_input manifestPath file iterator in
  trace o = map event_of (fst p) /\ failed o = message_of (snd p).
Proof.
  intros p o.
  destruct (run_cases accept_all mode_input manifestPath file iterator)
    as [H | (pre & c & post & message & _ & H & _)]; [exact H|discriminate].
Qed.

(** In every case the calls sent are an initial segment of the planned calls. *)
Lemma run_attempted_prefix (service : list call -> call -> option string)
    (mode_input manifestPath : string) (file : manifest_file) (iterator : listing) :
  exists rest,
    calls (fst (plan mode_input manifestPath file iterator))
    = attempted (trace (run service mode_input manifestPath file iterator)) ++ rest.
Proof.
  destruct (run_cases service mode_input manifestPath file iterator)
    as [[H _] | (pre & c & post & message & H1 & _ & H2 & _)].
  - exists []. now rewrite H, attempted_events, app_nil_r.
  - exists (calls post). rewrite H1, H2, calls_app, attempted_app, attempted_events.
    simpl. now rewrite <- app_assoc.
Qed.

(** ** Facts about the map *)

Module LabelMapFacts.
Import LabelMap.

Lemma get_set_same (k : string) (v : file_label) (m : t) : get k (set k v m) = Some v.
Proof.
  induction m as [|[k' v'] r IH]; simpl.
  - now rewrite String.eqb_refl.
  - destruct (k' =? k) eqn:E; simpl.
    + now rewrite String.eqb_refl.
    + now rewrite E.
Qed.

Lemma get_set_other (k k' : string) (v : file_label) (m : t) :
  k <> k' -> get k (set k' v m) = get k m.
Proof.
  intros Hne. induction m as [|[k0 v0] r IH]; simpl.
  - destruct (String.eqb_spec k' k); [congruence|reflexivity].
  - destruct (String.eqb_spec k0 k'); simpl.
    + subst k0. destruct (String.eqb_spec k' k); [congruence|reflexivity].
    + destruct (k0 =? k); [reflexivity|assumption].
Qed.

Lemma get_none (k : string) (m : t) : get k m = None <-> ~ In k (keys m).
Proof.
  induction m as [|[k' v'] r IH]; simpl; [tauto|].
  destruct (String.eqb_spec k' k).
  - split; [discriminate|]. intros H. exfalso. auto.
  - rewrite IH. tauto.
Qed.

Lemma get_some_in (k : string) (v : file_label) (m : t) :
  get k m = Some v -> In (k, v) m.
Proof.
  induction m as [|[k' v'] r IH]; simpl; [discriminate|].
  destruct (String.eqb_spec k' k).
  - intros [= ->]. subst. now left.
  - auto.
Qed.

Lemma in_get (k : string) (v : file_label) (m : t) :
  NoDup (keys m) -> In (k, v) m -> get k m = Some v.
Proof.
  induction m as [|[k' v'] r IH]; simpl; [tauto|].
  intros Hnd [H|H]; inversion Hnd as [|? ? Hnotin Hnd']; subst.
  - injection H as -> ->. now rewrite String.eqb_refl.
  - destruct (String.eqb_spec k' k).
    + subst k'. exfalso. apply Hnotin. apply (in_map fst) in H. exact H.
    + auto.
Qed.

Lemma keys_set (k : string) (v : file_label) (m : t) :
  keys (set k v m) = if has k m then keys m else keys m ++ [k].
Proof.
  unfold has. induction m as [|[k' v'] r IH]; simpl; [reflexivity|].
  destruct (String.eqb_spec k' k); simpl.
  - now subst.
  - rewrite IH. now destruct (get k r).
Qed.

Lemma set_NoDup (k : string) (v : file_label) (m : t) :
  NoDup (keys m) -> NoDup (keys (set k v m)).
Proof.
  intros Hnd. rewrite keys_set. unfold has.
  destruct (get k m) eqn:E; [assumption|].
  apply get_none in E. apply NoDup_app; [assumption|repeat constructor; simpl; tauto|].
  intros x Hx [<-|[]]. contradiction.
Qed.

Lemma in_keys_set (k k' : string) (v : file_label) (m : t) :
  In k (keys (set k' v m)) <-> k = k' \/ In k (keys m).
Proof.
  rewrite keys_set. unfold has. destruct (get k' m) eqn:E.
  - split; [tauto|]. intros [->|H]; [|assumption].
    destruct (in_dec string_dec k' (keys m)) as [H|H]; [assumption|].
    apply get_none in H. congruence.
  - rewrite in_app_iff. simpl. intuition congruence.
Qed.

Lemma keys_delete (k : string) (m : t) :
  NoDup (keys m) -> keys (delete k m) = filter (fun k' => negb (k' =? k)) (keys m).
Proof.
  induction m as [|[k' v'] r IH]; simpl; [reflexivity|].
  intros Hnd. inversion Hnd as [|? ? Hnotin Hnd']; subst.
  destruct (String.eqb_spec k' k); simpl.
  - subst k'. symmetry. apply forallb_filter_id, forallb_forall.
    intros x Hx. destruct (String.eqb_spec x k); [congruence|reflexivity].
  - now rewrite IH.
Qed.

Lemma delete_NoDup (k : string) (m : t) : NoDup (keys m) -> NoDup (keys (delete k m)).
Proof.
  intros Hnd. rewrite keys_delete by assumption. now apply NoDup_filter.
Qed.

Lemma in_keys_delete (k k' : string) (m : t) :
  NoDup (keys m) -> (In k (keys (delete k' m)) <-> k <> k' /\ In k (keys m)).
Proof.
  intros Hnd. rewrite keys_delete by assumption. rewrite filter_In.
  destruct (String.eqb_spec k k'); simpl; intuition congruence.
Qed.

Lemma get_delete_same (k : string) (m : t) :
  NoDup (keys m) -> get k (delete k m) = None.
Proof.
  intros Hnd. apply get_none. rewrite in_keys_delete by assumption. tauto.
Qed.

Lemma get_delete_other (k k' : string) (m : t) :
  k <> k' -> get k (delete k' m) = get k m.
Proof.
  intros Hne. induction m as [|[k0 v0] r IH]; simpl; [reflexivity|].
  destruct (String.eqb_spec k0 k'); simpl.
  - subst k0. destruct (String.eqb_spec k' k); [congruence|reflexivity].
  - rewrite IH. reflexivity.
Qed.

End LabelMapFacts.

(** ** Validation and construction of the map *)

Lemma truthy_js_or (s : string) : truthy (Some s) = true -> js_or (Some s) "" = s.
Proof. simpl. now destruct (s =? ""). Qed.

Lemma build_map_valid (fileContent : list manifest_entry) (m : LabelMap.t) :
  forallb valid_entry fileContent = true ->
  build_map fileContent m = inr (fold_left set_entry fileContent m).
Proof.
  revert m. induction fileContent as [|e rest IH]; intros m;
    cbn [build_map forallb fold_left]; [reflexivity|].
  rewrite andb_true_iff. intros [Hv Hrest].
  unfold valid_entry in Hv. apply andb_true_iff in Hv as [Hn Hc].
  unfold set_entry at 2, entry_value.
  destruct (me_name e) as [n|], (me_color e) as [c|]; try discriminate.
  rewrite Hn, Hc. cbn [negb orb].
  rewrite (truthy_js_or n Hn), (truthy_js_or c Hc). now apply IH.
Qed.

Lemma build_map_invalid (fileContent : list manifest_entry) (m : LabelMap.t) :
  forallb valid_entry fileContent = false ->
  build_map fileContent m = inl (JsError validation_message).
Proof.
  intros H. destruct (build_map fileContent m) as [e|m'] eqn:E.
  - now rewrite (build_map_throws _ _ _ E).
  - exfalso. revert m E H.
    induction fileContent as [|e rest IH]; intros m;
      cbn [build_map forallb]; [discriminate|].
    unfold valid_entry at 1.
    destruct (me_name e) as [n|], (me_color e) as [c|]; try discriminate.
    destruct (truthy (Some n)), (truthy (Some c)); cbn [negb orb andb];
      try discriminate.
    apply IH.
Qed.

Lemma fold_set_NoDup (fileContent : list manifest_entry) (m : LabelMap.t) :
  NoDup (LabelMap.keys m) -> NoDup (LabelMap.keys (fold_left set_entry fileContent m)).
Proof.
  revert m. induction fileContent as [|e rest IH]; intros m H; simpl; [assumption|].
  apply IH, LabelMapFacts.set_NoDup, H.
Qed.

Lemma build_map_NoDup (fileContent : list manifest_entry) (m : LabelMap.t) :
  build_map fileContent LabelMap.empty = inr m -> NoDup (LabelMap.keys m).
Proof.
  intros H. destruct (forallb valid_entry fileContent) eqn:E.
  - rewrite build_map_valid in H by assumption. injection H as <-.
    apply fold_set_NoDup. constructor.
  - rewrite build_map_invalid in H by assumption. discriminate.
Qed.

Lemma fold_set_untouched (k : string) (fileContent : list manifest_entry) (m : LabelMap.t) :
  (forall e, In e fileContent -> me_name e <> Some k) ->
  forallb valid_entry fileContent = true ->
  LabelMap.get k (fold_left set_entry fileContent m) = LabelMap.get k m.
Proof.
  revert m. induction fileContent as [|e rest IH]; intros m Hk Hv; simpl; [reflexivity|].
  simpl in Hv. apply andb_true_iff in Hv as [He Hv].
  rewrite IH by (auto with datatypes). unfold set_entry.
  apply LabelMapFacts.get_set_other.
  unfold valid_entry in He. apply andb_true_iff in He as [Hn _].
  destruct (me_name e) as [n|] eqn:E; [|discriminate].
  rewrite (truthy_js_or n Hn). intros ->. apply (Hk e); auto with datatypes.
Qed.

Lemma fold_set_keys (k : string) (fileContent : list manifest_entry) (m : LabelMap.t) :
  forallb valid_entry fileContent = true ->
  In k (LabelMap.keys (fold_left set_entry fileContent m))
  <-> In k (LabelMap.keys m) \/ exists e, In e fileContent /\ me_name e = Some k.
Proof.
  revert m. induction fileContent as [|e rest IH]; intros m Hv; simpl.
  - split; [tauto|]. intros [H|(e & [] & _)]. assumption.
  - simpl in Hv. apply andb_true_iff in Hv as [He Hv].
    rewrite IH by assumption. unfold set_entry.
    rewrite LabelMapFacts.in_keys_set.
    unfold valid_entry in He. apply andb_true_iff in He as [Hn _].
    destruct (me_name e) as [n|] eqn:E; [|discriminate].
    rewrite (truthy_js_or n Hn). split.
    + intros [[->|H]|(e' & H1 & H2)]; eauto.
    + intros [H|(e' & [<-|H1] & H2)]; eauto.
      left. left. congruence.
Qed.

(** C2: when some manifest entry has no non-empty name or no non-empty color,
    the run fails with the validation message and its trace is empty: no
    create, update or delete call is sent, whatever the mode, the listing and
    the other entries. *)
Theorem invalid_entry_no_mutation
    (service : list call -> call -> option string)
    (mode_input manifestPath : string) (fileContent : list manifest_entry)
    (iterator : listing) (e : manifest_entry) :
  In e fileContent ->
  truthy (me_name e) = false \/ truthy (me_color e) = false ->
  let o := run service mode_input manifestPath (FileArray fileContent) iterator in
  failed o = Some validation_message
  /\ trace o = []
  /\ attempted (trace o) = [].
Proof.
  intros Hin Hbad o.
  assert (Hf : forallb valid_entry fileContent = false).
  { destruct (forallb valid_entry fileContent) eqn:E; [|reflexivity].
    rewrite forallb_forall in E. specialize (E e Hin).
    unfold valid_entry in E. apply andb_true_iff in E. destruct Hbad; intuition congruence. }
  assert (Ho : o = mkOutcome (Some validation_message) []).
  { subst o. unfold run, run_body.
    rewrite build_map_invalid by assumption. reflexivity. }
  rewrite Ho. auto.
Qed.

(** Nine valid entries and one without a color, in delete mode, against a
    repository that has labels. *)
Lemma invalid_entry_no_mutation_witness :
  let o := run accept_all "delete" "labels.json"
             (FileArray (repeat (mkEntry (Some "bug") (Some "ff0000") None) 9
                         ++ [mkEntry (Some "feature") None None]))
             (of_pages [[mkLabel "bug" "ff0000" None]]) in
  failed o = Some validation_message /\ trace o = [] /\ attempted (trace o) = [].
Proof.
  apply (invalid_entry_no_mutation accept_all "delete" "labels.json" _ _
           (mkEntry (Some "feature") None None)).
  - simpl. tauto.
  - right. reflexivity.
Defined.

Lemma page_plan_app (mode : string) (l1 l2 : list repo_label) (m : LabelMap.t) :
  page_plan mode (l1 ++ l2) m
  = (fst (page_plan mode l1 m) ++ fst (page_plan mode l2 (snd (page_plan mode l1 m))),
     snd (page_plan mode l2 (snd (page_plan mode l1 m)))).
Proof.
  revert m. induction l1 as [|l ls IH]; intros m; simpl.
  - now destruct (page_plan mode l2 m).
  - destruct (label_plan mode l m) as [sa ma]. rewrite IH.
    destruct (page_plan mode ls ma) as [sb mb]. simpl. now rewrite app_assoc.
Qed.

Lemma listing_plan_listed (mode : string) (iterator : listing) (m : LabelMap.t) :
  fst (listing_plan mode iterator m) = fst (page_plan mode (listed iterator) m)
  /\ (snd (listing_plan mode iterator m) = inr (snd (page_plan mode (listed iterator) m))
      \/ exists message, snd (listing_plan mode iterator m) = inl (JsError message)).
Proof.
  revert m. induction iterator as [|labels rest IH|message]; intros m; simpl.
  - auto.
  - rewrite page_plan_app.
    destruct (page_plan mode labels m) as [s1 m1] eqn:E1.
    destruct (listing_plan mode rest m1) as [s2 r] eqn:E2.
    specialize (IH m1). rewrite E2 in IH. simpl in *. destruct IH as [IH1 IH2].
    split; [congruence|]. exact IH2.
  - split; [reflexivity|]. right. now exists message.
Qed.

Lemma listed_of_pages (pages : list (list repo_label)) :
  listed (of_pages pages) = concat pages.
Proof. induction pages as [|p rest IH]; simpl; congruence. Qed.

Lemma listing_plan_of_pages (mode : string) (pages : list (list repo_label))
    (m : LabelMap.t) :
  listing_plan mode (of_pages pages) m
  = (fst (page_plan mode (concat pages) m), inr (snd (page_plan mode (concat pages) m))).
Proof.
  revert m. induction pages as [|p rest IH]; intros m; simpl; [reflexivity|].
  rewrite page_plan_app. destruct (page_plan mode p m) as [s1 m1].
  rewrite IH. reflexivity.
Qed.

(** C7: a manifest whose entries all carry a name and a color is accepted
    even when names repeat: the map is built without error, holds each name
    once, and gives every name the color and description of the last entry
    that bears it. *)
Theorem duplicate_names_last_wins (fileContent : list manifest_entry) :
  forallb valid_entry fileContent = true ->
  exists m,
    build_map fileContent LabelMap.empty = inr m
    /\ NoDup (LabelMap.keys m)
    /\ (forall n, In n (LabelMap.keys m)
                  <-> exists e, In e fileContent /\ me_name e = Some n)
    /\ (forall pre e post n c,
          fileContent = pre ++ e :: post ->
          me_name e = Some n ->
          me_color e = Some c ->
          (forall e', In e' post -> me_name e' <> Some n) ->
          LabelMap.get n m = Some (mkFileLabel c (js_or (me_description e) "")))
    /\ (forall mode_input manifestPath pages,
          failed (run accept_all mode_input manifestPath (FileArray fileContent)
                    (of_pages pages)) = None).
Proof.
  intros Hv. exists (fold_left set_entry fileContent LabelMap.empty).
  split; [now apply build_map_valid|].
  split; [apply fold_set_NoDup; constructor|].
  split.
  { intros n. rewrite fold_set_keys by assumption. simpl. tauto. }
  split.
  - intros pre e post n c -> Hn Hc Hpost.
    rewrite forallb_app in Hv. apply andb_true_iff in Hv as [_ Hv].
    simpl in Hv. apply andb_true_iff in Hv as [He Hv].
    rewrite fold_left_app. simpl.
    rewrite fold_set_untouched by assumption.
    unfold set_entry, entry_value. rewrite Hn, Hc.
    unfold valid_entry in He. rewrite Hn, Hc in He.
    apply andb_true_iff in He as [Htn Htc].
    rewrite (truthy_js_or n Htn), (truthy_js_or c Htc).
    apply LabelMapFacts.get_set_same.
  - intros mode_input manifestPath pages.
    destruct (run_accept_all mode_input manifestPath (FileArray fileContent)
                (of_pages pages)) as [_ ->].
    unfold plan. rewrite build_map_valid by assumption.
    destruct (negb _); [|reflexivity].
    rewrite listing_plan_of_pages. reflexivity.
Qed.

(** Two entries named bug: the map keeps one, with the later color. *)
Lemma duplicate_names_last_wins_witness :
  exists m,
    build_map [mkEntry (Some "bug") (Some "ff0000") (Some "first");
               mkEntry (Some "feature") (Some "00ff00") None;
               mkEntry (Some "bug") (Some "0000ff") None] LabelMap.empty = inr m
    /\ LabelMap.get "bug" m = Some (mkFileLabel "0000ff" "")
    /\ LabelMap.keys m = ["bug"; "feature"].
Proof.
  destruct (duplicate_names_last_wins
              [mkEntry (Some "bug") (Some "ff0000") (Some "first");
               mkEntry (Some "feature") (Some "00ff00") None;
               mkEntry (Some "bug") (Some "0000ff") None] eq_refl)
    as (m & Hm & _ & _ & Hlast & _).
  exists m. split; [exact Hm|]. split.
  - apply (Hlast [mkEntry (Some "bug") (Some "ff0000") (Some "first");
                  mkEntry (Some "feature") (Some "00ff00") None]
                 (mkEntry (Some "bug") (Some "0000ff") None) [] "bug" "0000ff");
      try reflexivity.
    intros e' [].
  - simpl in Hm. injection Hm as <-. reflexivity.
Defined.

(** ** Facts about order-preserving sublists *)

Lemma subsequence_nil {A : Type} (l : list A) : subsequence [] l.
Proof. induction l; auto. Qed.

Lemma subsequence_refl {A : Type} (l : list A) : subsequence l l.
Proof. induction l; auto. Qed.

Lemma subsequence_app {A : Type} (s1 l1 s2 l2 : list A) :
  subsequence s1 l1 -> subsequence s2 l2 -> subsequence (s1 ++ s2) (l1 ++ l2).
Proof. induction 1; simpl; auto. Qed.

Lemma subsequence_trans {A : Type} (a b c : list A) :
  subsequence a b -> subsequence b c -> subsequence a c.
Proof.
  intros Hab Hbc. revert a Hab.
  induction Hbc as [|x s l H IH|x s l H IH]; intros a Hab.
  - assumption.
  - auto.
  - inversion Hab; subst; auto.
Qed.

Lemma subsequence_map {A B : Type} (f : A -> B) (s l : list A) :
  subsequence s l -> subsequence (map f s) (map f l).
Proof. induction 1; simpl; auto. Qed.

Lemma subsequence_prefix {A : Type} (s rest : list A) : subsequence s (s ++ rest).
Proof. induction s; simpl; auto using subsequence_nil. Qed.

Lemma subsequence_in {A : Type} (s l : list A) (x : A) :
  subsequence s l -> In x s -> In x l.
Proof. induction 1; simpl; intuition. Qed.

Lemma subsequence_NoDup {A : Type} (s l : list A) :
  subsequence s l -> NoDup l -> NoDup s.
Proof.
  induction 1 as [|x s l H IH|x s l H IH]; intros Hnd.
  - constructor.
  - inversion Hnd; auto.
  - inversion Hnd; subst. constructor; auto.
    intros Hin. eauto using subsequence_in.
Qed.

(** A prefix of [a ++ b] is a prefix of [a] followed by a prefix of [b]. *)
Lemma prefix_split {A : Type} (a b p rest : list A) :
  a ++ b = p ++ rest ->
  exists p1 p2, p = p1 ++ p2 /\ subsequence p1 a /\ subsequence p2 b
                /\ (p2 <> [] -> p1 = a).
Proof.
  revert p. induction a as [|x a IH]; intros p; simpl.
  - intros ->. exists [], p. repeat split; auto using subsequence_prefix.
  - destruct p as [|y p]; simpl.
    + intros _. exists [], []. repeat split; auto using subsequence_nil. congruence.
    + intros [= <- H]. destruct (IH p H) as (p1 & p2 & -> & H1 & H2 & H3).
      exists (x :: p1), p2. repeat split; auto. intros Hne. now rewrite H3.
Qed.

(** ** The pass over the listed labels *)

Lemma delete_absent (k : string) (m : LabelMap.t) :
  LabelMap.get k m = None -> LabelMap.delete k m = m.
Proof.
  induction m as [|[k' v'] r IH]; simpl; [reflexivity|].
  destruct (k' =? k); [discriminate|]. intros H. now rewrite IH.
Qed.

Lemma page_plan_update_map (labels : list repo_label) (m : LabelMap.t) :
  snd (page_plan "update" labels m) = delete_listed m labels.
Proof.
  revert m. induction labels as [|l ls IH]; intros m; simpl; [reflexivity|].
  unfold label_plan. simpl.
  destruct (LabelMap.get (name l) m) as [fl|] eqn:E.
  - specialize (IH (LabelMap.delete (name l) m)).
    destruct (page_plan "update" ls _) as [s2 m2]. exact IH.
  - rewrite (delete_absent _ _ E). specialize (IH m).
    destruct (page_plan "update" ls m) as [s2 m2]. exact IH.
Qed.

Lemma subsequence_delete (k : string) (m : LabelMap.t) :
  subsequence (LabelMap.delete k m) m.
Proof.
  induction m as [|[k' v'] r IH]; simpl; auto.
  destruct (k' =? k); auto using subsequence_refl.
Qed.

Lemma subsequence_delete_listed (labels : list repo_label) (m : LabelMap.t) :
  subsequence (delete_listed m labels) m.
Proof.
  revert m. induction labels as [|l ls IH]; intros m; simpl.
  - apply subsequence_refl.
  - eapply subsequence_trans; [apply IH|apply subsequence_delete].
Qed.

Lemma delete_listed_keys (labels : list repo_label) (m : LabelMap.t) (k : string) :
  NoDup (LabelMap.keys m) ->
  In k (LabelMap.keys (delete_listed m labels))
  <-> In k (LabelMap.keys m) /\ ~ In k (map name labels).
Proof.
  revert m. induction labels as [|l ls IH]; intros m Hnd; simpl.
  - tauto.
  - rewrite IH by now apply LabelMapFacts.delete_NoDup.
    rewrite LabelMapFacts.in_keys_delete by assumption.
    intuition congruence.
Qed.

Lemma page_plan_delete (mode : string) (labels : list repo_label) (m : LabelMap.t) :
  (mode =? "update") = false ->
  page_plan mode labels m = (map (fun l => Call (deleteLabel (name l))) labels, m).
Proof.
  intros Hm. induction labels as [|l ls IH]; simpl; [reflexivity|].
  unfold label_plan. rewrite Hm, IH. reflexivity.
Qed.

(** In update mode the pass only sends updates, for listed names that are
    keys of the map, carrying the values of the map. *)
Lemma page_plan_update_calls (labels : list repo_label) (m : LabelMap.t) (c : call) :
  In c (calls (fst (page_plan "update" labels m))) ->
  exists l fl,
    In l labels /\ In (name l, fl) m
    /\ c = updateLabel (name l) (fl_color fl) (fl_description fl).
Proof.
  revert m. induction labels as [|l ls IH]; intros m; simpl; [tauto|].
  unfold label_plan. simpl.
  destruct (LabelMap.get (name l) m) as [fl|] eqn:E.
  - specialize (IH (LabelMap.delete (name l) m)).
    destruct (page_plan "update" ls _) as [s2 m2]. simpl in *.
    rewrite calls_app, in_app_iff. intros [H|H].
    + destruct (differs l fl); simpl in H; [|tauto].
      destruct H as [<-|[]]. exists l, fl.
      auto using LabelMapFacts.get_some_in.
    + destruct (IH H) as (l' & fl' & H1 & H2 & H3).
      exists l', fl'. split; [auto|]. split; [|assumption].
      eapply subsequence_in; [apply subsequence_delete|eassumption].
  - specialize (IH m). destruct (page_plan "update" ls m) as [s2 m2]. simpl in *.
    intros H. destruct (IH H) as (l' & fl' & H1 & H2 & H3). eauto 6.
Qed.

Lemma page_plan_update_order (labels : list repo_label) (m : LabelMap.t) :
  subsequence (map call_name (calls (fst (page_plan "update" labels m))))
    (map name labels).
Proof.
  revert m. induction labels as [|l ls IH]; intros m; simpl; [auto|].
  unfold label_plan. simpl.
  destruct (LabelMap.get (name l) m) as [fl|] eqn:E.
  - specialize (IH (LabelMap.delete (name l) m)).
    destruct (page_plan "update" ls _) as [s2 m2]. simpl in *.
    rewrite calls_app, map_app.
    destruct (differs l fl); simpl; auto.
  - specialize (IH m). destruct (page_plan "update" ls m) as [s2 m2]. simpl in *. auto.
Qed.

Lemma calls_create_plan (m : LabelMap.t) : calls (create_plan m) = map create_call m.
Proof. induction m as [|e r IH]; simpl; congruence. Qed.

(** ** Runs by mode *)

Lemma run_success (service : list call -> call -> option string)
    (mode_input manifestPath : string) (file : manifest_file) (iterator : listing) :
  let p := plan mode_input manifestPath file iterator in
  let o := run service mode_input manifestPath file iterator in
  failed o = None ->
  trace o = map event_of (fst p) /\ snd p = None.
Proof.
  intros p o Hf.
  destruct (run_cases service mode_input manifestPath file iterator)
    as [[H1 H2] | (pre & c & post & message & _ & _ & _ & H)].
  - split; [exact H1|]. fold o in H2. rewrite Hf in H2. subst p.
    destruct (snd (plan mode_input manifestPath file iterator)) as [e|] eqn:E;
      [|reflexivity].
    destruct (plan_throws _ _ _ _ _ E) as [message ->]. discriminate.
  - fold o in H. congruence.
Qed.

Lemma build_map_valid_inv (fileContent : list manifest_entry) (m : LabelMap.t) :
  build_map fileContent LabelMap.empty = inr m ->
  forallb valid_entry fileContent = true.
Proof.
  intros H. destruct (forallb valid_entry fileContent) eqn:E; [reflexivity|].
  rewrite build_map_invalid in H by assumption. discriminate.
Qed.

Lemma build_map_keys (fileContent : list manifest_entry) (m : LabelMap.t) (n : string) :
  build_map fileContent LabelMap.empty = inr m ->
  In n (LabelMap.keys m) <-> exists e, In e fileContent /\ me_name e = Some n.
Proof.
  intros H. pose proof (build_map_valid_inv _ _ H) as Hv.
  rewrite build_map_valid in H by assumption. injection H as <-.
  rewrite fold_set_keys by assumption. simpl. tauto.
Qed.

Lemma call_name_create (m : LabelMap.t) :
  map call_name (map create_call m) = LabelMap.keys m.
Proof. induction m as [|[k v] r IH]; simpl; congruence. Qed.

Lemma plan_add (manifestPath : string) (fileContent : list manifest_entry)
    (iterator : listing) (m : LabelMap.t) :
  build_map fileContent LabelMap.empty = inr m ->
  plan "add" manifestPath (FileArray fileContent) iterator = (create_plan m, None).
Proof. intros H. unfold plan. now rewrite H. Qed.

(** Either the manifest yields a map, or the run stops before step 5 with an
    empty trace. *)
Lemma map_or_nothing (service : list call -> call -> option string)
    (mode_input manifestPath : string) (file : manifest_file) (iterator : listing) :
  (exists fileContent m,
     file = FileArray fileContent /\ build_map fileContent LabelMap.empty = inr m)
  \/ (trace (run service mode_input manifestPath file iterator) = []
      /\ failed (run service mode_input manifestPath file iterator) <> None).
Proof.
  destruct file as [| message | | fileContent]; try (right; split; [reflexivity|discriminate]).
  destruct (build_map fileContent LabelMap.empty) as [e|m] eqn:E.
  - right. unfold run, run_body. rewrite E.
    rewrite (build_map_throws _ _ _ E). split; [reflexivity|discriminate].
  - left. eauto.
Qed.

(** C4: in add mode every call sent is a create call (so no update and no
    delete is sent, whatever the listing and the manifest), no name is created
    twice, every created name is the name of a manifest entry, and when the
    run succeeds every manifest name has been created.  Against a service
    that accepts every call, a manifest that passes validation makes the run
    succeed after applying exactly one create call per entry of the desired
    map, that is one per distinct manifest name, with the values of the map. *)
Theorem add_mode_only_creates
    (service : list call -> call -> option string)
    (manifestPath : string) (file : manifest_file) (iterator : listing) :
  let o := run service "add" manifestPath file iterator in
  (forall c, In c (attempted (trace o)) ->
             is_create c = true /\ is_update c = false /\ is_delete c = false)
  /\ NoDup (map call_name (attempted (trace o)))
  /\ (forall n, In n (map call_name (attempted (trace o))) ->
                exists fileContent e,
                  file = FileArray fileContent /\ In e fileContent /\ me_name e = Some n)
  /\ (failed o = None ->
      forall fileContent e n,
        file = FileArray fileContent -> In e fileContent -> me_name e = Some n ->
        In n (map call_name (applied (trace o))))
  /\ (forall fileContent m,
        file = FileArray fileContent ->
        build_map fileContent LabelMap.empty = inr m ->
        let o' := run accept_all "add" manifestPath file iterator in
        failed o' = None
        /\ applied (trace o') = map create_call m
        /\ NoDup (map call_name (applied (trace o')))
        /\ (forall n, In n (map call_name (applied (trace o')))
                      <-> exists e, In e fileContent /\ me_name e = Some n)).
Proof.
  intros o.
  assert (Hall : forall fileContent m,
            file = FileArray fileContent ->
            build_map fileContent LabelMap.empty = inr m ->
            let o' := run accept_all "add" manifestPath file iterator in
            failed o' = None
            /\ applied (trace o') = map create_call m
            /\ NoDup (map call_name (applied (trace o')))
            /\ (forall n, In n (map call_name (applied (trace o')))
                          <-> exists e, In e fileContent /\ me_name e = Some n)).
  { intros fileContent m -> Hm o'.
    destruct (run_accept_all "add" manifestPath (FileArray fileContent) iterator)
      as [Htr Hf].
    fold o' in Htr, Hf.
    assert (Happlied : applied (trace o') = map create_call m).
    { rewrite Htr, applied_events, (plan_add _ _ _ _ Hm). simpl.
      apply calls_create_plan. }
    split; [|split; [exact Happlied|]].
    - now rewrite Hf, (plan_add _ _ _ _ Hm).
    - rewrite Happlied, call_name_create. split.
      + eapply build_map_NoDup, Hm.
      + intros n. apply (build_map_keys _ _ n Hm). }
  destruct (map_or_nothing service "add" manifestPath file iterator)
    as [(fileContent & m & -> & Hm) | [Htr Hf]].
  - destruct (run_attempted_prefix service "add" manifestPath (FileArray fileContent)
                iterator) as [rest Hrest].
    fold o in Hrest. rewrite (plan_add _ _ _ _ Hm) in Hrest. simpl in Hrest.
    rewrite calls_create_plan in Hrest.
    assert (Hsub : subsequence (attempted (trace o)) (map create_call m)).
    { rewrite Hrest. apply subsequence_prefix. }
    split; [|split; [|split; [|split; [|exact Hall]]]].
    + intros c Hc. apply (subsequence_in _ _ _ Hsub) in Hc.
      apply in_map_iff in Hc as (entry & <- & _). auto.
    + apply (subsequence_NoDup _ (LabelMap.keys m)).
      * rewrite <- call_name_create. now apply subsequence_map.
      * eapply build_map_NoDup, Hm.
    + intros n Hn. exists fileContent.
      apply (subsequence_in _ _ _ (subsequence_map call_name _ _ Hsub)) in Hn.
      rewrite call_name_create in Hn.
      apply (build_map_keys _ _ n Hm) in Hn as (e & He1 & He2). eauto.
    + intros Hf fc e n [= <-] He Hn.
      destruct (run_success service "add" manifestPath (FileArray fileContent)
                  iterator Hf) as [Htr _].
      fold o in Htr. rewrite Htr, applied_events, (plan_add _ _ _ _ Hm). simpl.
      rewrite calls_create_plan, call_name_create.
      apply (build_map_keys _ _ n Hm). eauto.
  - fold o in Htr, Hf. rewrite Htr. simpl.
    split; [tauto|]. split; [constructor|]. split; [tauto|].
    split; [|exact Hall]. intros H. contradiction.
Qed.

(** The manifest names bug twice and feature once, and the repository
    already has bug: add mode creates bug, with the later color, and feature,
    and sends nothing else. *)
Lemma add_mode_only_creates_witness :
  let o := run accept_all "add" "labels.json"
             (FileArray [mkEntry (Some "bug") (Some "ff0000") None;
                         mkEntry (Some "feature") (Some "00ff00") (Some "new");
                         mkEntry (Some "bug") (Some "0000ff") None])
             (of_pages [[mkLabel "bug" "ff0000" None]]) in
  failed o = None
  /\ applied (trace o)
     = [createLabel "bug" "0000ff" ""; createLabel "feature" "00ff00" "new"].
Proof.
  intros o.
  destruct (add_mode_only_creates accept_all "labels.json"
              (FileArray [mkEntry (Some "bug") (Some "ff0000") None;
                          mkEntry (Some "feature") (Some "00ff00") (Some "new");
                          mkEntry (Some "bug") (Some "0000ff") None])
              (of_pages [[mkLabel "bug" "ff0000" None]]))
    as (_ & _ & _ & _ & Hall).
  destruct (Hall [mkEntry (Some "bug") (Some "ff0000") None;
                  mkEntry (Some "feature") (Some "00ff00") (Some "new");
                  mkEntry (Some "bug") (Some "0000ff") None]
                 [("bug", mkFileLabel "0000ff" "");
                  ("feature", mkFileLabel "00ff00" "new")]
                 eq_refl eq_refl) as (Hf & Ha & _).
  split; [exact Hf|exact Ha].
Defined.

Lemma listing_plan_other (mode : string) (iterator : listing) (m : LabelMap.t) :
  (mode =? "update") = false ->
  listing_plan mode iterator m = listing_plan "delete" iterator m.
Proof.
  intros Hm. revert m. induction iterator as [|labels rest IH|message]; intros m; simpl.
  - reflexivity.
  - rewrite (page_plan_delete mode labels m Hm).
    rewrite (page_plan_delete "delete" labels m eq_refl).
    now rewrite IH.
  - reflexivity.
Qed.

Lemma plan_other (mode_input manifestPath : string) (file : manifest_file)
    (iterator : listing) :
  mode_of mode_input <> "add" ->
  mode_of mode_input <> "update" ->
  plan mode_input manifestPath file iterator = plan "delete" manifestPath file iterator.
Proof.
  intros Ha Hu. unfold plan.
  destruct file as [| message | | fileContent]; try reflexivity.
  destruct (build_map fileContent LabelMap.empty) as [e|m]; [reflexivity|].
  destruct (String.eqb_spec (mode_of mode_input) "add") as [|_]; [contradiction|].
  destruct (String.eqb_spec (mode_of mode_input) "update") as [|_]; [contradiction|].
  simpl negb. cbv iota.
  rewrite (listing_plan_other (mode_of mode_input)).
  - reflexivity.
  - destruct (String.eqb_spec (mode_of mode_input) "update"); [contradiction|reflexivity].
Qed.

Lemma plan_delete (manifestPath : string) (fileContent : list manifest_entry)
    (pages : list (list repo_label)) (m : LabelMap.t) :
  build_map fileContent LabelMap.empty = inr m ->
  plan "delete" manifestPath (FileArray fileContent) (of_pages pages)
  = (map (fun l => Call (delete_call l)) (concat pages) ++ create_plan m, None).
Proof.
  intros H. unfold plan. rewrite H. simpl.
  rewrite listing_plan_of_pages, (page_plan_delete "delete" _ _ eq_refl).
  reflexivity.
Qed.

Lemma calls_delete (labels : list repo_label) :
  calls (map (fun l => Call (delete_call l)) labels) = map delete_call labels.
Proof. induction labels as [|l ls IH]; simpl; congruence. Qed.

(** C1 (as amended): in delete mode with a manifest that passes validation,
    the calls sent are, in this order, one delete call for each listed label
    and then one create call for each entry of the desired map; the calls of
    any run are an initial segment of that sequence, a run that succeeds has
    applied all of it, and a run against a service that accepts every call
    succeeds.  So no update is sent, and a create is sent for every manifest
    name. *)
Theorem delete_mode_deletes_then_creates
    (service : list call -> call -> option string)
    (manifestPath : string) (fileContent : list manifest_entry)
    (pages : list (list repo_label)) (m : LabelMap.t) :
  build_map fileContent LabelMap.empty = inr m ->
  let planned := map delete_call (concat pages) ++ map create_call m in
  let o := run service "delete" manifestPath (FileArray fileContent) (of_pages pages) in
  let o' := run accept_all "delete" manifestPath (FileArray fileContent) (of_pages pages) in
  (exists rest, planned = attempted (trace o) ++ rest)
  /\ (failed o = None -> applied (trace o) = planned)
  /\ failed o' = None
  /\ applied (trace o') = planned.
Proof.
  intros Hm planned o o'.
  pose proof (plan_delete manifestPath fileContent pages m Hm) as Hp.
  assert (Hc : calls (fst (plan "delete" manifestPath (FileArray fileContent)
                             (of_pages pages))) = planned).
  { rewrite Hp. simpl. now rewrite calls_app, calls_delete, calls_create_plan. }
  split; [|split; [|split]].
  - destruct (run_attempted_prefix service "delete" manifestPath
                (FileArray fileContent) (of_pages pages)) as [rest Hrest].
    exists rest. now rewrite <- Hc.
  - intros Hf.
    destruct (run_success service "delete" manifestPath (FileArray fileContent)
                (of_pages pages) Hf) as [Htr _].
    fold o in Htr. now rewrite Htr, applied_events.
  - destruct (run_accept_all "delete" manifestPath (FileArray fileContent)
                (of_pages pages)) as [_ Hf].
    fold o' in Hf. now rewrite Hf, Hp.
  - destruct (run_accept_all "delete" manifestPath (FileArray fileContent)
                (of_pages pages)) as [Htr _].
    fold o' in Htr. now rewrite Htr, applied_events.
Qed.

Lemma delete_mode_deletes_then_creates_witness :
  applied (trace (run accept_all "delete" "labels.json"
    (FileArray [mkEntry (Some "bug") (Some "00ff00") None])
    (of_pages [[mkLabel "bug" "ff0000" None]; [mkLabel "wontfix" "ffffff" None]])))
  = [deleteLabel "bug"; deleteLabel "wontfix"; createLabel "bug" "00ff00" ""].
Proof.
  apply (delete_mode_deletes_then_creates accept_all "labels.json"
           [mkEntry (Some "bug") (Some "00ff00") None]
           [[mkLabel "bug" "ff0000" None]; [mkLabel "wontfix" "ffffff" None]]
           [("bug", mkFileLabel "00ff00" "")] eq_refl).
Defined.

(** C1 as stated fails: in delete mode with a non-empty manifest a create
    call is sent after the deletes. *)
Lemma delete_mode_emits_create :
  let o := run accept_all "delete" "labels.json"
             (FileArray [mkEntry (Some "bug") (Some "ff0000") None])
             (of_pages [[mkLabel "bug" "ff0000" None]]) in
  applied (trace o) = [deleteLabel "bug"; createLabel "bug" "ff0000" ""]
  /\ ~ (forall c, In c (applied (trace o)) -> is_create c = false).
Proof.
  split; [reflexivity|].
  intros H. specialize (H (createLabel "bug" "ff0000" "")).
  simpl in H. discriminate H. tauto.
Qed.

(** C10: a mode that is neither add nor update runs exactly as delete mode
    does: with a valid manifest, every listed label is deleted and then every
    entry of the desired map is created. *)
Theorem unknown_mode_is_delete
    (service : list call -> call -> option string)
    (mode_input manifestPath : string) (file : manifest_file) (iterator : listing) :
  mode_of mode_input <> "add" ->
  mode_of mode_input <> "update" ->
  run service mode_input manifestPath file iterator
  = run service "delete" manifestPath file iterator
  /\ (forall fileContent pages m,
        build_map fileContent LabelMap.empty = inr m ->
        let o := run accept_all mode_input manifestPath (FileArray fileContent)
                   (of_pages pages) in
        failed o = None
        /\ applied (trace o) = map delete_call (concat pages) ++ map create_call m).
Proof.
  intros Ha Hu.
  assert (Hrun : forall sv file' it',
            run sv mode_input manifestPath file' it'
            = run sv "delete" manifestPath file' it').
  { intros sv file' it'. unfold run. rewrite !run_body_plan.
    now rewrite (plan_other mode_input manifestPath file' it' Ha Hu). }
  split; [apply Hrun|].
  intros fileContent pages m Hm o. subst o. rewrite Hrun.
  destruct (run_accept_all "delete" manifestPath (FileArray fileContent)
              (of_pages pages)) as [Htr Hf].
  rewrite Htr, Hf, applied_events, (plan_delete _ _ _ _ Hm). simpl.
  now rewrite calls_app, calls_delete, calls_create_plan.
Qed.

(** The misspelt mode updte deletes the listed label and creates the
    manifest entry. *)
Lemma unknown_mode_is_delete_witness :
  run accept_all "updte" "labels.json"
    (FileArray [mkEntry (Some "feature") (Some "00ff00") None])
    (of_pages [[mkLabel "bug" "ff0000" None]])
  = run accept_all "delete" "labels.json"
      (FileArray [mkEntry (Some "feature") (Some "00ff00") None])
      (of_pages [[mkLabel "bug" "ff0000" None]])
  /\ applied (trace (run accept_all "updte" "labels.json"
        (FileArray [mkEntry (Some "feature") (Some "00ff00") None])
        (of_pages [[mkLabel "bug" "ff0000" None]])))
     = [deleteLabel "bug"; createLabel "feature" "00ff00" ""].
Proof.
  destruct (unknown_mode_is_delete accept_all "updte" "labels.json"
              (FileArray [mkEntry (Some "feature") (Some "00ff00") None])
              (of_pages [[mkLabel "bug" "ff0000" None]])) as [H1 H2].
  - discriminate.
  - discriminate.
  - split; [exact H1|].
    apply (H2 [mkEntry (Some "feature") (Some "00ff00") None]
              [[mkLabel "bug" "ff0000" None]]
              [("feature", mkFileLabel "00ff00" "")] eq_refl).
Defined.

(** ** The two phases of a run *)

(** The planned calls are those of the pass over the listing, none of them a
    create and in listing order, followed by creates in the order of the
    map. *)
Lemma plan_phases (mode_input manifestPath : string) (file : manifest_file)
    (iterator : listing) :
  exists a b,
    calls (fst (plan mode_input manifestPath file iterator)) = a ++ b
    /\ (forall c, In c a -> is_create c = false)
    /\ (forall c, In c b -> is_create c = true)
    /\ subsequence (map call_name a) (map name (listed iterator))
    /\ (forall fileContent m,
          file = FileArray fileContent ->
          build_map fileContent LabelMap.empty = inr m ->
          subsequence b (map create_call m)).
Proof.
  assert (Hnil : exists a b : list call,
            @nil call = a ++ b
            /\ (forall c, In c a -> is_create c = false)
            /\ (forall c, In c b -> is_create c = true)
            /\ subsequence (map call_name a) (map name (listed iterator))
            /\ (forall fileContent m,
                  file = FileArray fileContent ->
                  build_map fileContent LabelMap.empty = inr m ->
                  subsequence b (map create_call m))).
  { exists [], []. simpl. repeat split; try tauto; intros; apply subsequence_nil. }
  unfold plan. destruct file as [| message | | fileContent]; try exact Hnil.
  destruct (build_map fileContent LabelMap.empty) as [e|m] eqn:E; [exact Hnil|].
  clear Hnil.
  assert (Hcreate : forall m', subsequence m' m ->
            (forall c, In c (map create_call m') -> is_create c = true)
            /\ forall fc m0, FileArray fileContent = FileArray fc ->
                 build_map fc LabelMap.empty = inr m0 ->
                 subsequence (map create_call m') (map create_call m0)).
  { intros m' Hsub. split.
    - intros c Hc. apply in_map_iff in Hc as (entry & <- & _). reflexivity.
    - intros fc m0 [= <-] H0. rewrite E in H0. injection H0 as <-.
      now apply subsequence_map. }
  destruct (negb (mode_of mode_input =? "add")); simpl.
  2:{ exists [], (map create_call m). rewrite calls_create_plan. simpl.
      destruct (Hcreate m (subsequence_refl m)) as [H1 H2].
      repeat split; try tauto; auto using subsequence_nil. }
  destruct (listing_plan_listed (mode_of mode_input) iterator m) as [Hs Hr].
  destruct (listing_plan (mode_of mode_input) iterator m) as [s r]. simpl in Hs, Hr.
  assert (Hpass : (forall c, In c (calls s) -> is_create c = false)
                  /\ subsequence (map call_name (calls s)) (map name (listed iterator))
                  /\ subsequence
                       (snd (page_plan (mode_of mode_input) (listed iterator) m)) m).
  { subst s. destruct (mode_of mode_input =? "update") eqn:Eu.
    - apply String.eqb_eq in Eu. rewrite Eu. split; [|split].
      + intros c Hc. apply page_plan_update_calls in Hc as (l & fl & _ & _ & ->).
        reflexivity.
      + apply page_plan_update_order.
      + rewrite page_plan_update_map. apply subsequence_delete_listed.
    - rewrite (page_plan_delete _ _ _ Eu). simpl. rewrite calls_delete.
      split; [|split].
      + intros c Hc. apply in_map_iff in Hc as (l & <- & _). reflexivity.
      + rewrite map_map. simpl. apply subsequence_refl.
      + apply subsequence_refl. }
  destruct Hpass as (Hp1 & Hp2 & Hp3).
  destruct Hr as [-> | [message ->]]; simpl.
  - destruct (Hcreate _ Hp3) as [H1 H2].
    exists (calls s), (map create_call
                         (snd (page_plan (mode_of mode_input) (listed iterator) m))).
    rewrite calls_app, calls_create_plan. auto.
  - exists (calls s), []. rewrite app_nil_r. simpl.
    repeat split; try tauto; auto. intros. apply subsequence_nil.
Qed.

Lemma filter_phases (a b : list call) :
  (forall c, In c a -> is_create c = false) ->
  (forall c, In c b -> is_create c = true) ->
  filter (fun c => negb (is_create c)) (a ++ b) = a.
Proof.
  intros Ha Hb. rewrite filter_app.
  rewrite (forallb_filter_id _ a).
  - replace (filter _ b) with (@nil call); [apply app_nil_r|].
    symmetry. induction b as [|c b IH]; simpl; [reflexivity|].
    rewrite (Hb c) by (now left). simpl. apply IH. intros c' Hc'. apply Hb. now right.
  - apply forallb_forall. intros c Hc. now rewrite (Ha c Hc).
Qed.

(** C6: the calls of a run split into a first part that holds no create call,
    whose names follow the order of the listing, and a second part that holds
    only create calls, in the iteration order of the desired map; and once a
    create call has been sent, every update or delete call the run makes has
    been sent before it. *)
Theorem creates_come_last
    (service : list call -> call -> option string)
    (mode_input manifestPath : string) (file : manifest_file) (iterator : listing) :
  let o := run service mode_input manifestPath file iterator in
  exists ud cr,
    attempted (trace o) = ud ++ cr
    /\ (forall c, In c ud -> is_create c = false)
    /\ (forall c, In c cr -> is_create c = true)
    /\ subsequence (map call_name ud) (map name (listed iterator))
    /\ (forall fileContent m,
          file = FileArray fileContent ->
          build_map fileContent LabelMap.empty = inr m ->
          subsequence cr (map create_call m))
    /\ (cr <> [] ->
        ud = filter (fun c => negb (is_create c))
               (attempted (trace (run accept_all mode_input manifestPath file iterator)))).
Proof.
  intros o.
  destruct (plan_phases mode_input manifestPath file iterator)
    as (a & b & Hab & Ha & Hb & Hord & Hmap).
  destruct (run_attempted_prefix service mode_input manifestPath file iterator)
    as [rest Hrest].
  fold o in Hrest. rewrite Hab in Hrest.
  destruct (prefix_split _ _ _ _ Hrest) as (ud & cr & Heq & Hud & Hcr & Hfull).
  exists ud, cr. split; [exact Heq|]. split; [|split; [|split; [|split]]].
  - intros c Hc. eauto using subsequence_in.
  - intros c Hc. eauto using subsequence_in.
  - eapply subsequence_trans; [apply subsequence_map, Hud|exact Hord].
  - intros fc m Hfile Hm. eapply subsequence_trans; [exact Hcr|eauto].
  - intros Hne. rewrite (Hfull Hne).
    destruct (run_accept_all mode_input manifestPath file iterator) as [Htr _].
    rewrite Htr, attempted_events, Hab. symmetry. now apply filter_phases.
Qed.

(** ** Failure of a call *)

Lemma events_not_rejected (s : list step) : forallb (fun e => negb (is_rejected e)) (map event_of s) = true.
Proof. induction s as [|[c|msg] s IH]; simpl; auto. Qed.

Lemma rejected_last (pre post t : list event) (c c' : call) (message message' : string) :
  forallb (fun e => negb (is_rejected e)) t = true ->
  pre ++ Rejected c message :: post = t ++ [Rejected c' message'] ->
  pre = t /\ post = [] /\ c = c' /\ message = message'.
Proof.
  revert pre. induction t as [|e t IH]; intros pre Ht; simpl.
  - destruct pre as [|e' pre]; simpl.
    + intros [= -> -> ->]. auto.
    + intros [= _ H]. destruct pre; discriminate.
  - simpl in Ht. apply andb_true_iff in Ht as [He Ht].
    destruct pre as [|e' pre]; simpl.
    + intros [= <- _]. discriminate.
    + intros [= -> H]. destruct (IH pre Ht H) as (-> & H'). auto.
Qed.

(** C9: when the service rejects a call, that call is the last event of the
    run: nothing is sent after it, the calls applied before it stay applied
    and are exactly the calls the run makes before that one when nothing
    fails, and the run ends with [core.setFailed] given the message of the
    error instead of the error escaping. *)
Theorem rejected_call_aborts
    (service : list call -> call -> option string)
    (mode_input manifestPath : string) (file : manifest_file) (iterator : listing)
    (pre post : list event) (c : call) (message : string) :
  trace (run service mode_input manifestPath file iterator)
  = pre ++ Rejected c message :: post ->
  post = []
  /\ failed (run service mode_input manifestPath file iterator) = Some message
  /\ service (applied pre) c = Some message
  /\ applied (trace (run service mode_input manifestPath file iterator)) = applied pre
  /\ attempted pre = applied pre
  /\ exists rest,
       attempted (trace (run accept_all mode_input manifestPath file iterator))
       = applied pre ++ c :: rest.
Proof.
  intros Htr.
  destruct (run_cases service mode_input manifestPath file iterator)
    as [[H _] | (pre' & c' & post' & message' & Hp & Hs & Ht & Hf)].
  - exfalso. rewrite H in Htr.
    pose proof (events_not_rejected (fst (plan mode_input manifestPath file iterator)))
      as Hno.
    rewrite Htr, forallb_app in Hno. simpl in Hno.
    apply andb_true_iff in Hno as [_ Hno]. discriminate.
  - rewrite Ht in Htr. symmetry in Htr.
    destruct (rejected_last _ _ _ _ _ _ _ (events_not_rejected pre') Htr)
      as (-> & -> & -> & ->).
    rewrite Ht, Hf, applied_app, applied_events, attempted_events. simpl.
    rewrite app_nil_r. repeat split; auto.
    destruct (run_accept_all mode_input manifestPath file iterator) as [Ha _].
    exists (calls post'). rewrite Ha, attempted_events, Hp, calls_app. reflexivity.
Qed.

(** Three labels to delete, the second delete is rejected: the first stays
    applied, the third is never sent. *)
Lemma rejected_call_aborts_witness :
  let o := run reject_second "delete" "labels.json" (FileArray [])
             (of_pages [[mkLabel "a" "111111" None; mkLabel "b" "222222" None;
                         mkLabel "c" "333333" None]]) in
  trace o = [Applied (deleteLabel "a"); Rejected (deleteLabel "b") "Validation Failed"]
  /\ failed o = Some "Validation Failed"
  /\ applied (trace o) = [deleteLabel "a"].
Proof.
  intros o.
  assert (Htr : trace o = [Applied (deleteLabel "a")]
                          ++ Rejected (deleteLabel "b") "Validation Failed" :: [])
    by reflexivity.
  destruct (rejected_call_aborts reject_second "delete" "labels.json" (FileArray [])
              (of_pages [[mkLabel "a" "111111" None; mkLabel "b" "222222" None;
                          mkLabel "c" "333333" None]])
              [Applied (deleteLabel "a")] [] (deleteLabel "b") "Validation Failed" Htr)
    as (_ & Hf & _ & Ha & _).
  split; [exact Htr|]. split; [exact Hf|exact Ha].
Defined.

(** ** The label set of the repository *)

Lemma apply_call_frame (c : call) (n : string) (labels : list repo_label) :
  call_name c <> n ->
  filter (named n) (apply_call c labels) = filter (named n) labels.
Proof.
  unfold named. destruct c as [n' col d|n' col d|n']; simpl; intros Hne.
  - rewrite filter_app. simpl.
    destruct (String.eqb_spec n' n); [contradiction|apply app_nil_r].
  - induction labels as [|l ls IH]; simpl; [reflexivity|].
    destruct (String.eqb_spec (name l) n') as [E|E]; simpl.
    + rewrite E. destruct (String.eqb_spec n' n); [contradiction|apply IH].
    + now rewrite IH.
  - induction labels as [|l ls IH]; simpl; [reflexivity|].
    destruct (String.eqb_spec (name l) n') as [E|E]; simpl.
    + rewrite E. destruct (String.eqb_spec n' n); [contradiction|apply IH].
    + now rewrite IH.
Qed.

Lemma apply_calls_frame (cs : list call) (n : string) (labels : list repo_label) :
  (forall c, In c cs -> call_name c <> n) ->
  filter (named n) (apply_calls cs labels) = filter (named n) labels.
Proof.
  revert labels. induction cs as [|c cs IH]; intros labels H; simpl; [reflexivity|].
  rewrite IH by (intros c' Hc'; apply H; now right).
  apply apply_call_frame, H. now left.
Qed.

Lemma applied_attempted (tr : list event) (c : call) :
  In c (applied tr) -> In c (attempted tr).
Proof.
  induction tr as [|[c'|c' msg|msg] tr IH]; simpl; auto.
  intros [H|H]; auto.
Qed.

Lemma attempted_planned (service : list call -> call -> option string)
    (mode_input manifestPath : string) (file : manifest_file) (iterator : listing)
    (c : call) :
  In c (attempted (trace (run service mode_input manifestPath file iterator))) ->
  In c (calls (fst (plan mode_input manifestPath file iterator))).
Proof.
  destruct (run_attempted_prefix service mode_input manifestPath file iterator)
    as [rest ->].
  intros H. apply in_or_app. now left.
Qed.

(** The calls planned in update mode. *)
Lemma plan_update (mode_input manifestPath : string) (fileContent : list manifest_entry)
    (iterator : listing) (m : LabelMap.t) :
  mode_of mode_input = "update" ->
  build_map fileContent LabelMap.empty = inr m ->
  let p := plan mode_input manifestPath (FileArray fileContent) iterator in
  let pass := calls (fst (page_plan "update" (listed iterator) m)) in
  (calls (fst p) = pass ++ map create_call (delete_listed m (listed iterator))
   /\ snd p = None)
  \/ (calls (fst p) = pass /\ snd p <> None).
Proof.
  intros Hmode Hm p pass. subst p pass. unfold plan. rewrite Hm, Hmode. simpl.
  destruct (listing_plan_listed "update" iterator m) as [Hs Hr].
  destruct (listing_plan "update" iterator m) as [s r]. simpl in Hs, Hr.
  subst s. destruct Hr as [-> | [message ->]]; simpl.
  - left. now rewrite calls_app, calls_create_plan, page_plan_update_map.
  - right. split; [reflexivity|discriminate].
Qed.

Lemma plan_update_names (mode_input manifestPath : string)
    (fileContent : list manifest_entry) (iterator : listing) (m : LabelMap.t) (c : call) :
  mode_of mode_input = "update" ->
  build_map fileContent LabelMap.empty = inr m ->
  In c (calls (fst (plan mode_input manifestPath (FileArray fileContent) iterator))) ->
  In (call_name c) (LabelMap.keys m) /\ is_delete c = false.
Proof.
  intros Hmode Hm Hc.
  assert (Hpass : In c (calls (fst (page_plan "update" (listed iterator) m))) ->
                  In (call_name c) (LabelMap.keys m) /\ is_delete c = false).
  { intros H. apply page_plan_update_calls in H as (l & fl & _ & Hin & ->).
    split; [|reflexivity]. apply (in_map fst) in Hin. exact Hin. }
  destruct (plan_update mode_input manifestPath fileContent iterator m Hmode Hm)
    as [[Hp _] | [Hp _]]; rewrite Hp in Hc.
  - apply in_app_or in Hc as [H|H]; [auto|].
    apply in_map_iff in H as ([k v] & <- & Hin). split; [|reflexivity].
    apply (subsequence_in _ _ _ (subsequence_delete_listed _ _)) in Hin.
    apply (in_map fst) in Hin. exact Hin.
  - auto.
Qed.

(** C5: in update mode, a listed label whose name is not a key of the desired
    map is the target of no call (no update, no delete, no create), update
    mode sends no delete call at all, and the labels of that name are the
    same in the repository after the applied calls as before. *)
Theorem update_mode_leaves_unlisted_alone
    (service : list call -> call -> option string)
    (mode_input manifestPath : string) (fileContent : list manifest_entry)
    (iterator : listing) (m : LabelMap.t) (label : repo_label)
    (repository : list repo_label) :
  mode_of mode_input = "update" ->
  build_map fileContent LabelMap.empty = inr m ->
  In label (listed iterator) ->
  LabelMap.has (name label) m = false ->
  let o := run service mode_input manifestPath (FileArray fileContent) iterator in
  (forall c, In c (attempted (trace o)) ->
             call_name c <> name label /\ is_delete c = false)
  /\ filter (named (name label)) (apply_calls (applied (trace o)) repository)
     = filter (named (name label)) repository
  /\ (In label repository -> In label (apply_calls (applied (trace o)) repository)).
Proof.
  intros Hmode Hm Hin Hhas o.
  assert (Hnone : ~ In (name label) (LabelMap.keys m)).
  { apply LabelMapFacts.get_none. unfold LabelMap.has in Hhas.
    destruct (LabelMap.get (name label) m); [discriminate|reflexivity]. }
  assert (Hcalls : forall c, In c (attempted (trace o)) ->
                             call_name c <> name label /\ is_delete c = false).
  { intros c Hc. apply attempted_planned in Hc.
    destruct (plan_update_names _ _ _ _ _ _ Hmode Hm Hc) as [Hk Hd].
    split; [|exact Hd]. intros E. apply Hnone. now rewrite <- E. }
  assert (Hframe : filter (named (name label)) (apply_calls (applied (trace o)) repository)
                   = filter (named (name label)) repository).
  { apply apply_calls_frame. intros c Hc. apply Hcalls, applied_attempted, Hc. }
  split; [exact Hcalls|]. split; [exact Hframe|].
  intros Hrepo.
  assert (H : In label (filter (named (name label)) repository)).
  { apply filter_In. split; [assumption|apply String.eqb_refl]. }
  rewrite <- Hframe in H. apply filter_In in H. tauto.
Qed.

(** The label wontfix is not in the manifest: the run does not touch it. *)
Lemma update_mode_leaves_unlisted_alone_witness :
  let current := [mkLabel "bug" "ff0000" None; mkLabel "wontfix" "ffffff" None] in
  let o := run accept_all "update" "labels.json"
             (FileArray [mkEntry (Some "bug") (Some "00ff00") None])
             (of_pages [current]) in
  (forall c, In c (attempted (trace o)) ->
             call_name c <> "wontfix" /\ is_delete c = false)
  /\ In (mkLabel "wontfix" "ffffff" None) (apply_calls (applied (trace o)) current).
Proof.
  intros current o.
  destruct (update_mode_leaves_unlisted_alone accept_all "update" "labels.json"
              [mkEntry (Some "bug") (Some "00ff00") None] (of_pages [current])
              [("bug", mkFileLabel "00ff00" "")] (mkLabel "wontfix" "ffffff" None)
              current eq_refl eq_refl) as (H1 & _ & H3).
  - simpl. tauto.
  - reflexivity.
  - split; [exact H1|]. apply H3. simpl. tauto.
Defined.

(** ** The comparison of update mode *)

Lemma js_or_normalized (d : option string) : js_or d "" = normalized d.
Proof.
  destruct d as [s|]; simpl; [|reflexivity].
  destruct (String.eqb_spec s ""); congruence.
Qed.

Lemma differs_spec (label : repo_label) (fileLabel : file_label) :
  differs label fileLabel = true <-> fields_differ label fileLabel.
Proof.
  unfold differs, fields_differ.
  rewrite js_or_normalized, (js_or_normalized (Some _)). simpl.
  rewrite orb_true_iff, !negb_true_iff.
  destruct (String.eqb_spec (color label) (fl_color fileLabel)),
           (String.eqb_spec (normalized (description label)) (fl_description fileLabel));
    intuition congruence.
Qed.

Lemma differs_false (label : repo_label) (fileLabel : file_label) :
  differs label fileLabel = false <-> ~ fields_differ label fileLabel.
Proof.
  rewrite <- differs_spec. destruct (differs label fileLabel); intuition congruence.
Qed.

Lemma page_plan_update_named (labels : list repo_label) (m : LabelMap.t)
    (label : repo_label) (fileLabel : file_label) :
  NoDup (map name labels) ->
  In label labels ->
  LabelMap.get (name label) m = Some fileLabel ->
  filter (fun c => call_name c =? name label)
    (calls (fst (page_plan "update" labels m)))
  = if differs label fileLabel
    then [updateLabel (name label) (fl_color fileLabel) (fl_description fileLabel)]
    else [].
Proof.
  revert m. induction labels as [|l ls IH]; intros m Hnd Hin Hget; [destruct Hin|].
  inversion Hnd as [|? ? Hnotin Hnd']; subst.
  assert (Hrest : forall m', ~ In (name label) (map name ls) ->
            filter (fun c => call_name c =? name label)
              (calls (fst (page_plan "update" ls m'))) = []).
  { intros m' Hno.
    destruct (filter _ _) as [|c cs] eqn:E; [reflexivity|exfalso].
    assert (Hc : In c (filter (fun c => call_name c =? name label)
                         (calls (fst (page_plan "update" ls m')))))
      by (rewrite E; now left).
    apply filter_In in Hc as [Hc Hname].
    apply page_plan_update_calls in Hc as (l' & fl' & Hl' & _ & ->).
    simpl in Hname. apply String.eqb_eq in Hname.
    apply Hno. rewrite <- Hname. now apply in_map. }
  simpl. unfold label_plan. simpl.
  destruct Hin as [->|Hin].
  - rewrite Hget.
    specialize (Hrest (LabelMap.delete (name label) m) Hnotin).
    destruct (page_plan "update" ls _) as [s2 m2]. simpl in *.
    rewrite calls_app, filter_app, Hrest, app_nil_r.
    destruct (differs label fileLabel); simpl; [|reflexivity].
    now rewrite String.eqb_refl.
  - assert (Hne : name label <> name l).
    { intros E. apply Hnotin. rewrite <- E. now apply in_map. }
    destruct (LabelMap.get (name l) m) as [fl|] eqn:El.
    + specialize (IH (LabelMap.delete (name l) m) Hnd' Hin).
      rewrite LabelMapFacts.get_delete_other in IH by assumption.
      specialize (IH Hget).
      destruct (page_plan "update" ls _) as [s2 m2]. simpl in *.
      rewrite calls_app, filter_app, IH.
      destruct (differs l fl); simpl; [|reflexivity].
      destruct (String.eqb_spec (name l) (name label)); [congruence|reflexivity].
    + specialize (IH m Hnd' Hin Hget).
      destruct (page_plan "update" ls m) as [s2 m2]. simpl in *. exact IH.
Qed.

(** The calls that target one listed label in a run in update mode. *)
Lemma update_run_named (mode_input manifestPath : string)
    (fileContent : list manifest_entry) (iterator : listing) (m : LabelMap.t)
    (label : repo_label) (fileLabel : file_label) :
  mode_of mode_input = "update" ->
  build_map fileContent LabelMap.empty = inr m ->
  NoDup (map name (listed iterator)) ->
  In label (listed iterator) ->
  LabelMap.get (name label) m = Some fileLabel ->
  filter (fun c => call_name c =? name label)
    (calls (fst (plan mode_input manifestPath (FileArray fileContent) iterator)))
  = if differs label fileLabel
    then [updateLabel (name label) (fl_color fileLabel) (fl_description fileLabel)]
    else [].
Proof.
  intros Hmode Hm Hnd Hin Hget.
  pose proof (page_plan_update_named _ _ _ _ Hnd Hin Hget) as Hpass.
  destruct (plan_update mode_input manifestPath fileContent iterator m Hmode Hm)
    as [[Hp _] | [Hp _]]; rewrite Hp; [|exact Hpass].
  rewrite filter_app, Hpass.
  replace (filter _ (map create_call _)) with (@nil call); [apply app_nil_r|].
  symmetry.
  destruct (filter (fun c => call_name c =? name label)
              (map create_call (delete_listed m (listed iterator))))
    as [|c cs] eqn:E; [reflexivity|exfalso].
  assert (Hc : In c (filter (fun c => call_name c =? name label)
                       (map create_call (delete_listed m (listed iterator)))))
    by (rewrite E; now left).
  apply filter_In in Hc as [Hc Hname]. apply String.eqb_eq in Hname.
  apply (in_map call_name) in Hc. rewrite call_name_create, Hname in Hc.
  apply delete_listed_keys in Hc; [|eapply build_map_NoDup, Hm].
  destruct Hc as [_ Hc]. apply Hc. now apply in_map.
Qed.

(** C8: in update mode, for a listed label whose name is a key of the desired
    map, the loop body sends one update call carrying the desired color and
    description when the colors differ or the normalized descriptions differ,
    and sends nothing when both match; over a whole run on a listing with
    distinct names the calls that target the label are that update call or
    none; and a listed label without description matches a manifest entry
    whose description is empty. *)
Theorem update_iff_fields_differ
    (label : repo_label) (m : LabelMap.t) (fileLabel : file_label) :
  LabelMap.get (name label) m = Some fileLabel ->
  let update :=
    updateLabel (name label) (fl_color fileLabel) (fl_description fileLabel) in
  (forall service tr,
     exists evs,
       fst (on_label service "update" label m tr) = tr ++ evs
       /\ (fields_differ label fileLabel -> attempted evs = [update])
       /\ (~ fields_differ label fileLabel ->
           attempted evs = []
           /\ snd (on_label service "update" label m tr)
              = inr (LabelMap.delete (name label) m)))
  /\ (forall mode_input manifestPath fileContent iterator,
        mode_of mode_input = "update" ->
        build_map fileContent LabelMap.empty = inr m ->
        NoDup (map name (listed iterator)) ->
        In label (listed iterator) ->
        let sent :=
          filter (fun c => call_name c =? name label)
            (applied (trace (run accept_all mode_input manifestPath
                               (FileArray fileContent) iterator))) in
        (fields_differ label fileLabel -> sent = [update])
        /\ (~ fields_differ label fileLabel -> sent = []))
  /\ applied (trace (run accept_all "update" "labels.json"
       (FileArray [mkEntry (Some "bug") (Some "ff0000") (Some "");
                   mkEntry (Some "feature") (Some "00ff00") None])
       (of_pages [[mkLabel "bug" "ff0000" None]])))
     = [createLabel "feature" "00ff00" ""].
Proof.
  intros Hget update. split; [|split; [|reflexivity]].
  - intros service tr. rewrite on_label_plan. unfold label_plan.
    change ("update" =? "update") with true. cbv iota. rewrite Hget.
    destruct (differs label fileLabel) eqn:Ed; cbn [fst snd exec].
    + apply differs_spec in Ed. unfold bind, octokit, debug, ret.
      fold update.
      destruct (service (applied tr) update) as [message|]; simpl.
      * exists [Rejected update message].
        split; [reflexivity|]. split; [reflexivity|]. intros H. contradiction.
      * eexists. rewrite <- app_assoc. split; [reflexivity|].
        simpl. split; [reflexivity|]. intros H. contradiction.
    + apply differs_false in Ed. unfold bind, debug, ret. simpl.
      eexists. split; [reflexivity|]. simpl.
      split; [intros H; contradiction|auto].
  - intros mode_input manifestPath fileContent iterator Hmode Hm Hnd Hin sent.
    subst sent.
    destruct (run_accept_all mode_input manifestPath (FileArray fileContent) iterator)
      as [-> _].
    rewrite applied_events, (update_run_named _ _ _ _ _ _ _ Hmode Hm Hnd Hin Hget).
    destruct (differs label fileLabel) eqn:Ed.
    + apply differs_spec in Ed. split; [reflexivity|contradiction].
    + apply differs_false in Ed. split; [contradiction|reflexivity].
Qed.

(** The listed label bug is red, the manifest wants it green: one update. *)
Lemma update_iff_fields_differ_witness :
  filter (fun c => call_name c =? "bug")
    (applied (trace (run accept_all "update" "labels.json"
       (FileArray [mkEntry (Some "bug") (Some "00ff00") None])
       (of_pages [[mkLabel "bug" "ff0000" None]]))))
  = [updateLabel "bug" "00ff00" ""].
Proof.
  destruct (update_iff_fields_differ (mkLabel "bug" "ff0000" None)
              [("bug", mkFileLabel "00ff00" "")] (mkFileLabel "00ff00" "") eq_refl)
    as (_ & H & _).
  apply (H "update" "labels.json" [mkEntry (Some "bug") (Some "00ff00") None]
           (of_pages [[mkLabel "bug" "ff0000" None]]) eq_refl eq_refl).
  - simpl. repeat constructor. simpl. tauto.
  - simpl. tauto.
  - left. simpl. discriminate.
Defined.

(** ** A second run in update mode *)

Lemma touch_name (c : call) (l : repo_label) : name (touch c l) = name l.
Proof.
  destruct c as [n col d|n col d|n]; simpl; try reflexivity.
  destruct (String.eqb_spec (name l) n); simpl; congruence.
Qed.

Lemma touch_all_name (cs : list call) (l : repo_label) : name (touch_all cs l) = name l.
Proof.
  revert l. induction cs as [|c cs IH]; intros l; simpl; [reflexivity|].
  unfold touch_all in IH. now rewrite IH, touch_name.
Qed.

Lemma touch_other (c : call) (l : repo_label) : call_name c <> name l -> touch c l = l.
Proof.
  destruct c as [n col d|n col d|n]; simpl; try reflexivity.
  destruct (String.eqb_spec (name l) n); congruence.
Qed.

Lemma touch_all_other (cs : list call) (l : repo_label) :
  (forall c, In c cs -> call_name c <> name l) -> touch_all cs l = l.
Proof.
  induction cs as [|c cs IH]; intros H; simpl; [reflexivity|].
  rewrite touch_other by (apply H; now left).
  apply IH. intros c' Hc'. apply H. now right.
Qed.

Lemma apply_calls_app (cs1 cs2 : list call) (labels : list repo_label) :
  apply_calls (cs1 ++ cs2) labels = apply_calls cs2 (apply_calls cs1 labels).
Proof. apply fold_left_app. Qed.

Lemma apply_calls_updates (cs : list call) (labels : list repo_label) :
  (forall c, In c cs -> is_update c = true) ->
  apply_calls cs labels = map (touch_all cs) labels.
Proof.
  revert labels. induction cs as [|c cs IH]; intros labels H; simpl.
  - symmetry. apply map_id.
  - rewrite IH by (intros c' Hc'; apply H; now right).
    assert (Hc : is_update c = true) by (apply H; now left).
    destruct c as [n col d|n col d|n]; try discriminate.
    simpl. now rewrite map_map.
Qed.

Lemma apply_calls_creates (m : LabelMap.t) (labels : list repo_label) :
  apply_calls (map create_call m) labels = labels ++ map created_label m.
Proof.
  revert labels. induction m as [|e r IH]; intros labels; simpl.
  - now rewrite app_nil_r.
  - rewrite IH, <- app_assoc. reflexivity.
Qed.

Lemma delete_listed_names (m : LabelMap.t) (l1 l2 : list repo_label) :
  map name l1 = map name l2 -> delete_listed m l1 = delete_listed m l2.
Proof.
  revert m l2. induction l1 as [|x l1 IH]; intros m [|y l2]; simpl; try discriminate.
  - reflexivity.
  - intros [= -> H]. now apply IH.
Qed.

(** The pass does not look at labels whose name is not a key of the map. *)
Lemma page_plan_update_irrelevant (n : string) (l1 l2 : list repo_label) (m : LabelMap.t) :
  Forall2 (fun x y => name x = name y /\ (name x <> n -> x = y)) l1 l2 ->
  LabelMap.get n m = None ->
  page_plan "update" l1 m = page_plan "update" l2 m.
Proof.
  intros H. revert m. induction H as [|x y l1 l2 [Hname Hsame] _ IH]; intros m Hn.
  - reflexivity.
  - simpl. unfold label_plan. simpl. rewrite <- Hname.
    destruct (String.eqb_spec (name x) n) as [E|E].
    + rewrite E, Hn. now rewrite IH.
    + rewrite <- (Hsame E).
      destruct (LabelMap.get (name x) m) as [fl|].
      * rewrite IH; [reflexivity|].
        rewrite LabelMapFacts.get_delete_other by congruence. exact Hn.
      * now rewrite IH.
Qed.

Lemma differs_created (n : string) (fl : file_label) :
  differs (mkLabel n (fl_color fl) (Some (fl_description fl))) fl = false.
Proof. unfold differs. simpl. now rewrite !String.eqb_refl. Qed.

Lemma page_plan_cons (mode : string) (l : repo_label) (ls : list repo_label)
    (m : LabelMap.t) :
  page_plan mode (l :: ls) m
  = (fst (label_plan mode l m) ++ fst (page_plan mode ls (snd (label_plan mode l m))),
     snd (page_plan mode ls (snd (label_plan mode l m)))).
Proof.
  unfold page_plan; fold page_plan. destruct (label_plan mode l m) as [s1 m1].
  cbn [fst snd]. now destruct (page_plan mode ls m1).
Qed.

Lemma label_plan_update_some (l : repo_label) (m : LabelMap.t) (fl : file_label) :
  LabelMap.get (name l) m = Some fl ->
  label_plan "update" l m
  = ((if differs l fl
      then [Call (updateLabel (name l) (fl_color fl) (fl_description fl));
            Note (updated_note (name l))]
      else [Note (up_to_date_note (name l))]),
     LabelMap.delete (name l) m).
Proof. intros H. unfold label_plan. now rewrite H. Qed.

Lemma label_plan_update_none (l : repo_label) (m : LabelMap.t) :
  LabelMap.get (name l) m = None -> label_plan "update" l m = ([], m).
Proof. intros H. unfold label_plan. now rewrite H. Qed.

Lemma touch_all_cons (c : call) (cs : list call) (l : repo_label) :
  touch_all (c :: cs) l = touch_all cs (touch c l).
Proof. reflexivity. Qed.

(** After the updates of a pass have been applied, the same pass over the
    updated labels sends nothing. *)
Lemma quiet_after_updates (labels : list repo_label) (m : LabelMap.t) :
  NoDup (LabelMap.keys m) ->
  calls (fst (page_plan "update"
                (map (touch_all (calls (fst (page_plan "update" labels m)))) labels) m))
  = [].
Proof.
  revert m. induction labels as [|l ls IH]; intros m Hnd; [reflexivity|].
  assert (Hrest : forall c,
            In c (calls (fst (page_plan "update" ls (LabelMap.delete (name l) m)))) ->
            call_name c <> name l).
  { intros c Hc. apply page_plan_update_calls in Hc as (l' & fl' & _ & Hin & ->).
    simpl. apply (in_map fst) in Hin.
    apply (LabelMapFacts.in_keys_delete _ _ _ Hnd) in Hin. tauto. }
  rewrite (page_plan_cons "update" l ls m).
  destruct (LabelMap.get (name l) m) as [fl|] eqn:Eg.
  - rewrite (label_plan_update_some _ _ _ Eg). cbn [fst snd].
    pose proof (LabelMapFacts.delete_NoDup (name l) m Hnd) as Hnd'.
    specialize (IH (LabelMap.delete (name l) m) Hnd').
    set (m1 := LabelMap.delete (name l) m) in *.
    set (U := calls (fst (page_plan "update" ls m1))) in *.
    rewrite calls_app. fold U.
    destruct (differs l fl) eqn:Ed.
    + set (upd := updateLabel (name l) (fl_color fl) (fl_description fl)).
      change (calls [Call upd; Note (updated_note (name l))]) with [upd].
      cbn [app map]. rewrite page_plan_cons, touch_all_cons.
      assert (Hhead : touch_all U (touch upd l)
                      = mkLabel (name l) (fl_color fl) (Some (fl_description fl))).
      { unfold upd. simpl. rewrite String.eqb_refl.
        apply touch_all_other. exact Hrest. }
      rewrite Hhead.
      rewrite (label_plan_update_some
                 (mkLabel (name l) (fl_color fl) (Some (fl_description fl))) m fl Eg).
      rewrite differs_created. cbn [fst snd name]. fold m1.
      rewrite (page_plan_update_irrelevant (name l)
                 (map (touch_all (upd :: U)) ls) (map (touch_all U) ls)).
      * rewrite calls_app. simpl. exact IH.
      * clearbody U. clear.
        induction ls as [|x ls IHls]; cbn [map]; constructor; [|exact IHls].
        rewrite touch_all_cons, !touch_all_name, touch_name. split; [reflexivity|].
        intros Hne. unfold upd.
        rewrite (touch_other (updateLabel _ _ _) x); [reflexivity|]. simpl. congruence.
      * apply LabelMapFacts.get_delete_same. exact Hnd.
    + change (calls [Note (up_to_date_note (name l))]) with (@nil call).
      cbn [app map]. rewrite page_plan_cons.
      rewrite (touch_all_other U l Hrest).
      rewrite (label_plan_update_some _ _ _ Eg), Ed. cbn [fst snd]. fold m1.
      rewrite calls_app. simpl. exact IH.
  - rewrite (label_plan_update_none _ _ Eg). cbn [fst snd app map].
    specialize (IH m Hnd).
    set (U := calls (fst (page_plan "update" ls m))) in *.
    rewrite page_plan_cons.
    rewrite (label_plan_update_none (touch_all U l) m)
      by (rewrite touch_all_name; exact Eg).
    cbn [fst snd app]. exact IH.
Qed.

(** The pass over the labels just created from the map sends nothing and
    empties the map. *)
Lemma quiet_on_created (m : LabelMap.t) :
  calls (fst (page_plan "update" (map created_label m) m)) = []
  /\ snd (page_plan "update" (map created_label m) m) = [].
Proof.
  induction m as [|[k fl] r IH]; [auto|].
  cbn [map]. rewrite page_plan_cons.
  rewrite (label_plan_update_some (created_label (k, fl)) ((k, fl) :: r) fl)
    by (simpl; now rewrite String.eqb_refl).
  unfold created_label at 1 2 3. cbn [fst snd name LabelMap.delete].
  rewrite String.eqb_refl, differs_created. cbn [fst snd].
  rewrite calls_app. simpl. exact IH.
Qed.

Lemma differs_shown (x y : repo_label) (fl : file_label) :
  shown x = shown y -> differs x fl = differs y fl.
Proof.
  unfold shown, differs. intros [= Hn Hc Hd].
  now rewrite !js_or_normalized, Hc, Hd.
Qed.

Lemma settled_shown (m : LabelMap.t) (l1 l2 : list repo_label) :
  Permutation (map shown l2) (map shown l1) -> settled m l1 -> settled m l2.
Proof.
  intros Hperm [H1 H2]. split.
  - intros x fl Hx Hget.
    assert (Hs : In (shown x) (map shown l1)).
    { eapply Permutation_in; [exact Hperm|]. now apply in_map. }
    apply in_map_iff in Hs as (y & Hy & Hin).
    rewrite <- (differs_shown y x fl Hy).
    apply H1; [exact Hin|]. injection Hy as Hn _ _. now rewrite Hn.
  - intros k Hk. apply H2 in Hk. apply in_map_iff in Hk as (y & <- & Hy).
    assert (Hs : In (shown y) (map shown l2)).
    { eapply Permutation_in; [apply Permutation_sym, Hperm|]. now apply in_map. }
    apply in_map_iff in Hs as (x & Hx & Hin).
    injection Hx as Hn _ _. rewrite <- Hn. now apply in_map.
Qed.

(** A pass over labels that agree with the map sends nothing and leaves the
    map empty. *)
Lemma quiet_if_settled (m : LabelMap.t) (labels : list repo_label) :
  NoDup (LabelMap.keys m) ->
  settled m labels ->
  calls (fst (page_plan "update" labels m)) = [] /\ delete_listed m labels = [].
Proof.
  intros Hnd [H1 H2]. split.
  - assert (Hgen : forall ls m',
              (forall x, In x ls -> In x labels) ->
              NoDup (LabelMap.keys m') ->
              (forall k v, LabelMap.get k m' = Some v -> LabelMap.get k m = Some v) ->
              calls (fst (page_plan "update" ls m')) = []).
    { induction ls as [|x ls IH]; intros m' Hin Hnd' Hsub; [reflexivity|].
      rewrite page_plan_cons.
      destruct (LabelMap.get (name x) m') as [fl|] eqn:Eg.
      - rewrite (label_plan_update_some _ _ _ Eg).
        rewrite (H1 x fl) by (auto with datatypes). cbn [fst snd].
        rewrite calls_app. simpl. apply IH.
        + auto with datatypes.
        + now apply LabelMapFacts.delete_NoDup.
        + intros k v Hk. apply Hsub.
          apply LabelMapFacts.get_some_in in Hk.
          apply LabelMapFacts.in_get; [exact Hnd'|].
          eapply subsequence_in; [apply subsequence_delete|exact Hk].
      - rewrite (label_plan_update_none _ _ Eg). cbn [fst snd app].
        apply IH; auto with datatypes. }
    apply Hgen; auto.
  - destruct (delete_listed m labels) as [|[k v] r] eqn:E; [reflexivity|exfalso].
    assert (Hk : In k (LabelMap.keys (delete_listed m labels))).
    { rewrite E. simpl. now left. }
    apply delete_listed_keys in Hk; [|exact Hnd]. destruct Hk as [Hk Hno]. auto.
Qed.

Lemma touch_all_filter (cs : list call) (l : repo_label) :
  touch_all cs l = touch_all (filter (fun c => call_name c =? name l) cs) l.
Proof.
  revert l. induction cs as [|c cs IH]; intros l; [reflexivity|].
  cbn [filter]. destruct (String.eqb_spec (call_name c) (name l)) as [E|E].
  - rewrite !touch_all_cons, IH, touch_name. reflexivity.
  - rewrite touch_all_cons, (touch_other c l E). apply IH.
Qed.

(** After a successful run in update mode on labels with distinct names, the
    labels of the repository agree with the map. *)
Lemma settled_after_run (m : LabelMap.t) (labels : list repo_label) :
  NoDup (LabelMap.keys m) ->
  NoDup (map name labels) ->
  settled m
    (map (touch_all (calls (fst (page_plan "update" labels m)))) labels
     ++ map created_label (delete_listed m labels)).
Proof.
  intros Hnd Hnames. split.
  - intros x fl Hx Hget. apply in_app_or in Hx as [Hx|Hx].
    + apply in_map_iff in Hx as (l & <- & Hl).
      rewrite touch_all_name in Hget.
      rewrite touch_all_filter, (page_plan_update_named _ _ _ _ Hnames Hl Hget).
      destruct (differs l fl) eqn:Ed; [|exact Ed].
      unfold touch_all. simpl. rewrite String.eqb_refl. apply differs_created.
    + apply in_map_iff in Hx as ([k v] & <- & Hin).
      simpl in Hget.
      apply (subsequence_in _ _ _ (subsequence_delete_listed _ _)) in Hin.
      apply (LabelMapFacts.in_get _ _ _ Hnd) in Hin.
      rewrite Hin in Hget. injection Hget as <-.
      apply differs_created.
  - intros k Hk. rewrite map_app, in_app_iff.
    destruct (in_dec string_dec k (map name labels)) as [Hin|Hno].
    + left. rewrite map_map.
      rewrite (map_ext _ name) by (intros l; apply touch_all_name). exact Hin.
    + right. rewrite map_map. simpl.
      change (map (fun x : string * file_label => fst x)
                (delete_listed m labels))
        with (LabelMap.keys (delete_listed m labels)).
      apply delete_listed_keys; auto.
Qed.

(** A run in update mode whose pass sends nothing and empties the map sends
    no call. *)
Lemma quiet_run (service : list call -> call -> option string)
    (mode_input manifestPath : string) (fileContent : list manifest_entry)
    (iterator : listing) (m : LabelMap.t) :
  mode_of mode_input = "update" ->
  build_map fileContent LabelMap.empty = inr m ->
  calls (fst (page_plan "update" (listed iterator) m)) = [] ->
  delete_listed m (listed iterator) = [] ->
  attempted (trace (run service mode_input manifestPath (FileArray fileContent)
                      iterator)) = [].
Proof.
  intros Hmode Hm Hpass Hleft.
  destruct (run_attempted_prefix service mode_input manifestPath
              (FileArray fileContent) iterator) as [rest Hrest].
  destruct (plan_update mode_input manifestPath fileContent iterator m Hmode Hm)
    as [[Hp _] | [Hp _]]; rewrite Hp, Hpass in Hrest.
  - rewrite Hleft in Hrest. simpl in Hrest. symmetry in Hrest.
    now apply app_eq_nil in Hrest.
  - symmetry in Hrest. now apply app_eq_nil in Hrest.
Qed.

(** C3: when a run in update mode has succeeded, a second run in update mode
    with the same manifest sends no call at all, provided the second listing
    shows the labels of the first listing with the applied calls carried out:
    either exactly those labels in that order (in whatever pages), or, when
    the listed names are distinct, the same labels in any order, an empty
    description being shown as missing or as the empty string. *)
Theorem update_mode_idempotent
    (service1 : list call -> call -> option string)
    (mode_input manifestPath : string) (file : manifest_file) (iterator1 : listing) :
  mode_of mode_input = "update" ->
  failed (run service1 mode_input manifestPath file iterator1) = None ->
  let after :=
    apply_calls (applied (trace (run service1 mode_input manifestPath file iterator1)))
      (listed iterator1) in
  (forall service2 iterator2,
     listed iterator2 = after ->
     attempted (trace (run service2 mode_input manifestPath file iterator2)) = [])
  /\ (NoDup (map name (listed iterator1)) ->
      forall service2 iterator2,
        Permutation (map shown (listed iterator2)) (map shown after) ->
        attempted (trace (run service2 mode_input manifestPath file iterator2)) = []).
Proof.
  intros Hmode Hok after.
  destruct (map_or_nothing service1 mode_input manifestPath file iterator1)
    as [(fileContent & m & -> & Hm) | [_ Hf]]; [|contradiction].
  pose proof (build_map_NoDup _ _ Hm) as Hnd.
  (* what the first run applied *)
  assert (Hafter : after
                   = map (touch_all (calls (fst (page_plan "update" (listed iterator1) m))))
                       (listed iterator1)
                     ++ map created_label (delete_listed m (listed iterator1))).
  { subst after.
    destruct (run_success service1 mode_input manifestPath (FileArray fileContent)
                iterator1 Hok) as [Htr Hend].
    rewrite Htr, applied_events.
    destruct (plan_update mode_input manifestPath fileContent iterator1 m Hmode Hm)
      as [[Hp _] | [_ Hp]]; [|contradiction].
    rewrite Hp, apply_calls_app, apply_calls_creates.
    rewrite apply_calls_updates; [reflexivity|].
    intros c Hc. apply page_plan_update_calls in Hc as (l & fl & _ & _ & ->).
    reflexivity. }
  clearbody after. subst after.
  set (ls1 := listed iterator1).
  set (U := calls (fst (page_plan "update" ls1 m))).
  split.
  - (* the same labels in the same order *)
    intros service2 iterator2 Hlisted.
    apply (quiet_run service2 _ _ _ _ m Hmode Hm).
    + rewrite Hlisted, page_plan_app. cbn [fst].
      rewrite calls_app, (page_plan_update_map (map (touch_all U) ls1) m).
      rewrite (delete_listed_names m (map (touch_all U) ls1) ls1)
        by (rewrite map_map; apply map_ext; intros l; apply touch_all_name).
      destruct (quiet_on_created (delete_listed m ls1)) as [Hq _].
      rewrite Hq, app_nil_r. apply quiet_after_updates, Hnd.
    + rewrite <- page_plan_update_map, Hlisted, page_plan_app. cbn [snd].
      rewrite (page_plan_update_map (map (touch_all U) ls1) m).
      rewrite (delete_listed_names m (map (touch_all U) ls1) ls1)
        by (rewrite map_map; apply map_ext; intros l; apply touch_all_name).
      apply quiet_on_created.
  - (* the same labels in any order *)
    intros Hnames service2 iterator2 Hperm.
    destruct (quiet_if_settled m (listed iterator2) Hnd) as [Hq1 Hq2].
    { eapply settled_shown; [exact Hperm|]. now apply settled_after_run. }
    now apply (quiet_run service2 _ _ _ _ m Hmode Hm).
Qed.

(** First run: bug is recolored and feature is created; the second run, on
    the resulting labels listed in another order, sends nothing. *)
Lemma update_mode_idempotent_witness :
  let manifest := FileArray [mkEntry (Some "bug") (Some "00ff00") None;
                             mkEntry (Some "feature") (Some "0000ff") (Some "new")] in
  let first := run accept_all "update" "labels.json" manifest
                 (of_pages [[mkLabel "bug" "ff0000" None;
                             mkLabel "wontfix" "ffffff" None]]) in
  applied (trace first)
  = [updateLabel "bug" "00ff00" ""; createLabel "feature" "0000ff" "new"]
  /\ attempted (trace (run accept_all "update" "labels.json" manifest
        (of_pages [[mkLabel "bug" "00ff00" (Some "");
                    mkLabel "wontfix" "ffffff" None];
                   [mkLabel "feature" "0000ff" (Some "new")]]))) = []
  /\ attempted (trace (run accept_all "update" "labels.json" manifest
        (of_pages [[mkLabel "feature" "0000ff" (Some "new");
                    mkLabel "bug" "00ff00" None;
                    mkLabel "wontfix" "ffffff" None]]))) = [].
Proof.
  intros manifest first.
  destruct (update_mode_idempotent accept_all "update" "labels.json" manifest
              (of_pages [[mkLabel "bug" "ff0000" None;
                          mkLabel "wontfix" "ffffff" None]])
              eq_refl eq_refl) as [Hsame Hany].
  split; [reflexivity|]. split.
  - apply Hsame. reflexivity.
  - apply Hany.
    + simpl. repeat constructor; simpl; intuition discriminate.
    + simpl. apply perm_trans with
        [("bug", "00ff00", ""); ("feature", "0000ff", "new"); ("wontfix", "ffffff", "")].
      * apply perm_swap.
      * apply perm_skip, perm_swap.
Defined.

(** * Further properties of [run] *)

(** ** Manifest errors and modes *)

Lemma run_mode_of (service : list call -> call -> option string)
    (mode1 mode2 manifestPath : string) (file : manifest_file) (iterator : listing) :
  mode_of mode1 = mode_of mode2 ->
  run service mode1 manifestPath file iterator
  = run service mode2 manifestPath file iterator.
Proof. intros H. unfold run, run_body. now rewrite H. Qed.

(** The three ways the function can start: an empty token, a context that
    names no repository, or a client, after which the run is [run]. *)
Lemma run_action_cases (service : list call -> call -> option string)
    (token : string) (context : repo_context)
    (mode_input manifestPath : string) (file : manifest_file) (iterator : listing) :
  let o := run_action service token context mode_input manifestPath file iterator in
  (token = "" /\ o = mkOutcome (Some token_message) [])
  \/ (token <> "" /\ exists message,
        context = RepoUnknown message /\ o = mkOutcome (Some message) [])
  \/ (token <> "" /\ (exists owner repo, context = RepoKnown owner repo)
      /\ o = run service mode_input manifestPath file iterator).
Proof.
  intros o. subst o. unfold run_action, action_body.
  destruct (String.eqb_spec token "") as [->|Hne]; [left; auto|].
  right. destruct context as [owner repo|message].
  - right. split; [exact Hne|]. split; [eauto|reflexivity].
  - left. split; [exact Hne|]. eauto.
Qed.

(** X1: the run has no effect unless a client and a valid manifest exist.  An
    empty token makes it fail with the message of [github.getOctokit], a
    context without repository with the error of [github.context.repo], and,
    once the client exists, a manifest that is missing, unreadable or not an
    array with the corresponding message, the trace being empty each time;
    and whenever the trace of a run holds an event at all, the token was not
    empty, the repository was known and the manifest was an array whose
    entries all passed validation. *)
Theorem no_effect_without_valid_manifest
    (service : list call -> call -> option string)
    (token : string) (context : repo_context)
    (mode_input manifestPath : string) (file : manifest_file) (iterator : listing) :
  let o := run_action service token context mode_input manifestPath file iterator in
  (token = "" -> o = mkOutcome (Some token_message) [])
  /\ (token <> "" ->
      forall message, context = RepoUnknown message -> o = mkOutcome (Some message) [])
  /\ (token <> "" ->
      forall owner repo, context = RepoKnown owner repo ->
        (file = FileMissing ->
         o = mkOutcome
               (Some ("Manifest file not found at path: " ++ manifestPath)%string) [])
        /\ (forall message, file = FileUnparseable message ->
                            o = mkOutcome (Some message) [])
        /\ (file = FileNotArray -> o = mkOutcome (Some not_array_message) []))
  /\ (trace o <> [] ->
      token <> ""
      /\ (exists owner repo, context = RepoKnown owner repo)
      /\ exists fileContent,
           file = FileArray fileContent /\ forallb valid_entry fileContent = true).
Proof.
  intros o.
  destruct (run_action_cases service token context mode_input manifestPath file iterator)
    as [[Ht Ho] | [(Ht & message & Hc & Ho) | (Ht & (owner & repo & Hc) & Ho)]];
    fold o in Ho; rewrite Ho.
  - split; [reflexivity|]. split; [contradiction|]. split; [contradiction|].
    intros H. now contradiction H.
  - split; [contradiction|]. split.
    { intros _ message' E. congruence. }
    split.
    { intros _ owner repo E. congruence. }
    intros H. now contradiction H.
  - split; [contradiction|]. split.
    { intros _ message E. congruence. }
    split.
    + intros _ owner' repo' _. split; [|split].
      * intros ->. reflexivity.
      * intros message ->. reflexivity.
      * intros ->. reflexivity.
    + intros Hne. split; [exact Ht|]. split; [eauto|].
      destruct (map_or_nothing service mode_input manifestPath file iterator)
        as [(fileContent & m & -> & Hm) | [Htr _]]; [|contradiction].
      exists fileContent. split; [reflexivity|]. eapply build_map_valid_inv, Hm.
Qed.

(** An empty token: the function fails before the manifest is looked at, even
    when the manifest is missing. *)
Lemma no_effect_without_valid_manifest_witness :
  run_action accept_all "" (RepoKnown "octo" "labels") "update" "labels.json"
    FileMissing ListEnd
  = mkOutcome (Some token_message) [].
Proof.
  destruct (no_effect_without_valid_manifest accept_all "" (RepoKnown "octo" "labels")
              "update" "labels.json" FileMissing ListEnd) as [H _].
  apply H. reflexivity.
Defined.

(** X2: the mode input selects one of three behaviours: an empty input runs
    as update, and every input runs as add, as update or as delete. *)
Theorem mode_is_one_of_three
    (service : list call -> call -> option string)
    (mode_input manifestPath : string) (file : manifest_file) (iterator : listing) :
  run service "" manifestPath file iterator
  = run service "update" manifestPath file iterator
  /\ (run service mode_input manifestPath file iterator
      = run service "add" manifestPath file iterator
      \/ run service mode_input manifestPath file iterator
         = run service "update" manifestPath file iterator
      \/ run service mode_input manifestPath file iterator
         = run service "delete" manifestPath file iterator).
Proof.
  split; [reflexivity|].
  destruct (String.eqb_spec (mode_of mode_input) "add") as [Ha|Ha].
  - left. now apply run_mode_of.
  - destruct (String.eqb_spec (mode_of mode_input) "update") as [Hu|Hu].
    + right. left. now apply run_mode_of.
    + right. right. unfold run. rewrite !run_body_plan.
      now rewrite (plan_other mode_input manifestPath file iterator Ha Hu).
Qed.

(** ** Failure of the listing, and success *)

Lemma listing_plan_end (mode : string) (iterator : listing) (m : LabelMap.t) :
  snd (listing_plan mode iterator m)
  = match listing_error iterator with
    | Some message => inl (JsError message)
    | None => inr (snd (page_plan mode (listed iterator) m))
    end.
Proof.
  revert m. induction iterator as [|labels rest IH|message]; intros m; simpl.
  - reflexivity.
  - rewrite page_plan_app. destruct (page_plan mode labels m) as [s1 m1].
    specialize (IH m1). destruct (listing_plan mode rest m1) as [s2 r].
    simpl in *. exact IH.
  - reflexivity.
Qed.

(** The plan of a run that consults the listing. *)
Lemma plan_listing (mode_input manifestPath : string) (fileContent : list manifest_entry)
    (iterator : listing) (m : LabelMap.t) :
  mode_of mode_input <> "add" ->
  build_map fileContent LabelMap.empty = inr m ->
  plan mode_input manifestPath (FileArray fileContent) iterator
  = match listing_error iterator with
    | Some message =>
        (fst (page_plan (mode_of mode_input) (listed iterator) m),
         Some (JsError message))
    | None =>
        (fst (page_plan (mode_of mode_input) (listed iterator) m)
         ++ create_plan (snd (page_plan (mode_of mode_input) (listed iterator) m)),
         None)
    end.
Proof.
  intros Ha Hm. unfold plan. rewrite Hm.
  destruct (String.eqb_spec (mode_of mode_input) "add") as [|_]; [contradiction|].
  cbn [negb].
  pose proof (listing_plan_end (mode_of mode_input) iterator m) as Hend.
  destruct (listing_plan_listed (mode_of mode_input) iterator m) as [Hs _].
  destruct (listing_plan (mode_of mode_input) iterator m) as [s r].
  simpl in Hs, Hend. subst s r.
  now destruct (listing_error iterator).
Qed.

Lemma pass_sends_no_create (mode : string) (labels : list repo_label) (m : LabelMap.t)
    (c : call) :
  In c (calls (fst (page_plan mode labels m))) -> is_create c = false.
Proof.
  destruct (mode =? "update") eqn:Eu.
  - apply String.eqb_eq in Eu. subst mode. intros Hc.
    apply page_plan_update_calls in Hc as (l & fl & _ & _ & ->). reflexivity.
  - rewrite (page_plan_delete _ _ _ Eu). simpl. rewrite calls_delete.
    intros Hc. apply in_map_iff in Hc as (l & <- & _). reflexivity.
Qed.

Lemma listed_single (labels : list repo_label) :
  listed (of_pages [labels]) = labels /\ listing_error (of_pages [labels]) = None.
Proof. simpl. now rewrite app_nil_r. Qed.

(** X3: add mode never consults the listing, so the run is the same whatever
    the iterator does.  In the other modes, when the listing ends with an
    error the run fails, no create call is ever sent, and against a service
    that accepts every call the run fails with the message of that error
    after applying the update and delete calls for the labels listed before
    it: the calls of the run on those labels with the creates left out. *)
Theorem listing_error_aborts
    (service : list call -> call -> option string)
    (mode_input manifestPath : string) (fileContent : list manifest_entry)
    (iterator : listing) (m : LabelMap.t) (message : string) :
  build_map fileContent LabelMap.empty = inr m ->
  listing_error iterator = Some message ->
  let file := FileArray fileContent in
  let o := run service mode_input manifestPath file iterator in
  let o' := run accept_all mode_input manifestPath file iterator in
  let full := run accept_all mode_input manifestPath file (of_pages [listed iterator]) in
  (mode_of mode_input = "add" ->
   o = run service mode_input manifestPath file ListEnd)
  /\ (mode_of mode_input <> "add" ->
      failed o <> None
      /\ (forall c, In c (attempted (trace o)) -> is_create c = false)
      /\ failed o' = Some message
      /\ applied (trace o')
         = filter (fun c => negb (is_create c)) (applied (trace full))).
Proof.
  intros Hm Herr file o o' full. split.
  - intros Ha. subst o. unfold run, run_body. rewrite Ha. reflexivity.
  - intros Ha.
    pose proof (plan_listing mode_input manifestPath fileContent iterator m Ha Hm)
      as Hp.
    rewrite Herr in Hp.
    split; [|split; [|split]].
    + destruct (run_cases service mode_input manifestPath file iterator)
        as [[_ Hf] | (pre & c & post & msg & _ & _ & _ & Hf)];
        fold o in Hf; rewrite Hf; [|discriminate].
      unfold file. rewrite Hp. discriminate.
    + intros c Hc. apply attempted_planned in Hc. unfold file in Hc.
      rewrite Hp in Hc. eapply pass_sends_no_create, Hc.
    + destruct (run_accept_all mode_input manifestPath file iterator) as [_ Hf].
      fold o' in Hf. rewrite Hf. unfold file. now rewrite Hp.
    + destruct (run_accept_all mode_input manifestPath file iterator) as [Htr _].
      destruct (run_accept_all mode_input manifestPath file
                  (of_pages [listed iterator])) as [Htr' _].
      fold o' in Htr. fold full in Htr'.
      rewrite Htr, Htr', !applied_events. unfold file.
      rewrite Hp, (plan_listing _ _ _ _ _ Ha Hm).
      destruct (listed_single (listed iterator)) as [-> ->]. cbn [fst].
      rewrite calls_app, calls_create_plan. symmetry. apply filter_phases.
      * intros c Hc. eapply pass_sends_no_create, Hc.
      * intros c Hc. apply in_map_iff in Hc as (entry & <- & _). reflexivity.
Qed.

(** Delete mode: one page is listed, then the listing fails; the label of
    that page is deleted and the manifest entry is never created. *)
Lemma listing_error_aborts_witness :
  let o := run accept_all "delete" "labels.json"
             (FileArray [mkEntry (Some "feature") (Some "00ff00") None])
             (ListPage [mkLabel "bug" "ff0000" None] (ListError "Bad credentials")) in
  failed o = Some "Bad credentials" /\ applied (trace o) = [deleteLabel "bug"].
Proof.
  intros o.
  destruct (listing_error_aborts accept_all "delete" "labels.json"
              [mkEntry (Some "feature") (Some "00ff00") None]
              (ListPage [mkLabel "bug" "ff0000" None] (ListError "Bad credentials"))
              [("feature", mkFileLabel "00ff00" "")] "Bad credentials"
              eq_refl eq_refl) as [_ H].
  destruct H as (_ & _ & Hf & Ha); [discriminate|].
  split; [exact Hf|]. etransitivity; [exact Ha|reflexivity].
Defined.

Lemma outcome_eta (o : outcome) : o = mkOutcome (failed o) (trace o).
Proof. now destruct o. Qed.

(** X4: a run that does not fail is the run against a service that accepts
    every call: same trace, same calls, nothing rejected.  In every case the
    calls a run applied are an initial segment of the calls of that unhindered
    run, and a run succeeds exactly when the unhindered run succeeds and the
    service rejected nothing. *)
Theorem successful_run_is_complete
    (service : list call -> call -> option string)
    (mode_input manifestPath : string) (file : manifest_file) (iterator : listing) :
  let o := run service mode_input manifestPath file iterator in
  let o' := run accept_all mode_input manifestPath file iterator in
  (failed o = None -> o = o')
  /\ (exists rest, applied (trace o') = applied (trace o) ++ rest)
  /\ (failed o = None
      <-> failed o' = None /\ forall c message, ~ In (Rejected c message) (trace o)).
Proof.
  intros o o'.
  destruct (run_accept_all mode_input manifestPath file iterator) as [Htr' Hf'].
  fold o' in Htr', Hf'.
  assert (Hsame : failed o = None -> o = o').
  { intros Hok.
    destruct (run_success service mode_input manifestPath file iterator Hok)
      as [Htr Hend].
    fold o in Htr. rewrite (outcome_eta o), (outcome_eta o').
    rewrite Hok, Htr, Htr', Hf', Hend. reflexivity. }
  assert (Hclean : forall s c message, ~ In (Rejected c message) (map event_of s)).
  { intros s c message Hin. apply in_map_iff in Hin as ([c'|msg] & H & _); discriminate. }
  split; [exact Hsame|]. split.
  - destruct (run_cases service mode_input manifestPath file iterator)
      as [[Htr _] | (pre & c & post & msg & Hp & _ & Htr & _)]; fold o in Htr.
    + exists []. now rewrite Htr, Htr', app_nil_r.
    + exists (c :: calls post).
      rewrite Htr, Htr', applied_app, !applied_events, Hp, calls_app. simpl.
      now rewrite app_nil_r.
  - split.
    + intros Hok. rewrite <- (Hsame Hok). split; [exact Hok|].
      destruct (run_success service mode_input manifestPath file iterator Hok)
        as [Htr _].
      fold o in Htr. rewrite Htr. intros c message. apply Hclean.
    + intros [Hok' Hno].
      destruct (run_cases service mode_input manifestPath file iterator)
        as [[_ Hf] | (pre & c & post & msg & _ & _ & Htr & _)].
      * fold o in Hf. rewrite Hf, <- Hf'. exact Hok'.
      * fold o in Htr. exfalso. apply (Hno c msg). rewrite Htr.
        apply in_or_app. right. now left.
Qed.

(** Once the client exists and no call is rejected, the run succeeds exactly
    when the manifest is valid and, unless the mode is add, the listing ends
    without error. *)
Lemma run_success_iff
    (mode_input manifestPath : string) (file : manifest_file) (iterator : listing) :
  failed (run accept_all mode_input manifestPath file iterator) = None
  <-> exists fileContent,
        file = FileArray fileContent
        /\ forallb valid_entry fileContent = true
        /\ (mode_of mode_input = "add" \/ listing_error iterator = None).
Proof.
  destruct (run_accept_all mode_input manifestPath file iterator) as [_ ->].
  split.
  - intros Hok.
    destruct (map_or_nothing accept_all mode_input manifestPath file iterator)
      as [(fileContent & m & -> & Hm) | [_ Hf]].
    + exists fileContent. split; [reflexivity|].
      split; [eapply build_map_valid_inv, Hm|].
      destruct (String.eqb_spec (mode_of mode_input) "add") as [Ha|Ha]; [now left|].
      right. rewrite (plan_listing _ _ _ _ _ Ha Hm) in Hok.
      destruct (listing_error iterator); [discriminate|reflexivity].
    + destruct (run_accept_all mode_input manifestPath file iterator) as [_ Hf'].
      rewrite Hf' in Hf. contradiction.
  - intros (fileContent & -> & Hv & Hmode).
    pose proof (build_map_valid fileContent LabelMap.empty Hv) as Hm.
    destruct (String.eqb_spec (mode_of mode_input) "add") as [Ha|Ha].
    + unfold plan. rewrite Hm, Ha. reflexivity.
    + destruct Hmode as [Hmode|Hmode]; [contradiction|].
      rewrite (plan_listing _ _ _ _ _ Ha Hm), Hmode. reflexivity.
Qed.

(** X5: against a service that accepts every call, the function succeeds
    ([core.setFailed] is not called) exactly when the token is not empty, the
    context names the repository, the manifest is an array whose entries all
    carry a name and a color and, unless the mode is add, the listing ends
    without error. *)
Theorem unhindered_success_iff
    (token : string) (context : repo_context)
    (mode_input manifestPath : string) (file : manifest_file) (iterator : listing) :
  failed (run_action accept_all token context mode_input manifestPath file iterator)
  = None
  <-> token <> ""
      /\ (exists owner repo, context = RepoKnown owner repo)
      /\ exists fileContent,
           file = FileArray fileContent
           /\ forallb valid_entry fileContent = true
           /\ (mode_of mode_input = "add" \/ listing_error iterator = None).
Proof.
  destruct (run_action_cases accept_all token context mode_input manifestPath file
              iterator)
    as [[Ht Ho] | [(Ht & message & Hc & Ho) | (Ht & (owner & repo & Hc) & Ho)]];
    rewrite Ho.
  - split; [discriminate|]. intros [Hne _]. contradiction.
  - split; [discriminate|]. intros (_ & (owner & repo & E) & _). congruence.
  - rewrite run_success_iff. split.
    + intros H. split; [exact Ht|]. split; [eauto|exact H].
    + intros (_ & _ & H). exact H.
Qed.

(** A token, a known repository, a valid manifest and a listing that ends:
    the function succeeds. *)
Lemma unhindered_success_iff_witness :
  failed (run_action accept_all "ghp_token" (RepoKnown "octo" "labels") "update"
            "labels.json"
            (FileArray [mkEntry (Some "bug") (Some "00ff00") None])
            (of_pages [[mkLabel "bug" "ff0000" None]])) = None.
Proof.
  apply (unhindered_success_iff "ghp_token" (RepoKnown "octo" "labels") "update"
           "labels.json" (FileArray [mkEntry (Some "bug") (Some "00ff00") None])
           (of_pages [[mkLabel "bug" "ff0000" None]])).
  split; [discriminate|]. split; [eauto|].
  exists [mkEntry (Some "bug") (Some "00ff00") None]. auto.
Defined.

(** ** What the calls target and carry *)

Lemma pass_names_in_map (labels : list repo_label) (m : LabelMap.t) (n : string) :
  In n (map call_name (calls (fst (page_plan "update" labels m)))
        ++ LabelMap.keys (delete_listed m labels)) ->
  In n (LabelMap.keys m).
Proof.
  intros H. apply in_app_or in H as [H|H].
  - apply in_map_iff in H as (c & <- & Hc).
    apply page_plan_update_calls in Hc as (l & fl & _ & Hin & ->).
    apply (in_map fst) in Hin. exact Hin.
  - apply in_map_iff in H as ([k v] & <- & Hin).
    apply (subsequence_in _ _ _ (subsequence_delete_listed _ _)) in Hin.
    apply (in_map fst) in Hin. exact Hin.
Qed.

(** The names targeted by the pass and the keys it leaves are all different. *)
Lemma update_names_NoDup (labels : list repo_label) (m : LabelMap.t) :
  NoDup (LabelMap.keys m) ->
  NoDup (map call_name (calls (fst (page_plan "update" labels m)))
         ++ LabelMap.keys (delete_listed m labels)).
Proof.
  revert m. induction labels as [|l ls IH]; intros m Hnd; [exact Hnd|].
  rewrite page_plan_cons. cbn [fst delete_listed fold_left].
  fold (delete_listed (LabelMap.delete (name l) m) ls).
  destruct (LabelMap.get (name l) m) as [fl|] eqn:Eg.
  - rewrite (label_plan_update_some _ _ _ Eg). cbn [fst snd].
    pose proof (LabelMapFacts.delete_NoDup (name l) m Hnd) as Hnd'.
    specialize (IH _ Hnd'). rewrite calls_app, map_app, <- app_assoc.
    destruct (differs l fl); simpl; [|exact IH].
    constructor; [|exact IH].
    intros Hin. apply pass_names_in_map in Hin.
    apply (LabelMapFacts.in_keys_delete _ _ _ Hnd) in Hin. tauto.
  - rewrite (label_plan_update_none _ _ Eg). cbn [fst snd app].
    rewrite (delete_absent _ _ Eg). apply IH, Hnd.
Qed.

(** X6: in update mode no name is the target of two calls of a run: each
    listed name is updated at most once, even when the listing repeats it,
    and no name is both updated and created or created twice. *)
Theorem update_mode_one_call_per_name
    (service : list call -> call -> option string)
    (mode_input manifestPath : string) (file : manifest_file) (iterator : listing) :
  mode_of mode_input = "update" ->
  NoDup (map call_name
           (attempted (trace (run service mode_input manifestPath file iterator)))).
Proof.
  intros Hmode.
  destruct (map_or_nothing service mode_input manifestPath file iterator)
    as [(fileContent & m & -> & Hm) | [Htr _]]; [|rewrite Htr; constructor].
  pose proof (update_names_NoDup (listed iterator) m (build_map_NoDup _ _ Hm)) as Hnd.
  destruct (run_attempted_prefix service mode_input manifestPath
              (FileArray fileContent) iterator) as [rest Hrest].
  apply (subsequence_NoDup _
           (map call_name
              (calls (fst (plan mode_input manifestPath (FileArray fileContent)
                             iterator))))).
  - rewrite Hrest. apply subsequence_map, subsequence_prefix.
  - destruct (plan_update mode_input manifestPath fileContent iterator m Hmode Hm)
      as [[Hp _] | [Hp _]]; rewrite Hp.
    + now rewrite map_app, call_name_create.
    + apply NoDup_app_remove_r in Hnd. exact Hnd.
Qed.

(** The listing shows bug twice with different colors: one update only. *)
Lemma update_mode_one_call_per_name_witness :
  NoDup (map call_name
           (attempted (trace (run accept_all "update" "labels.json"
              (FileArray [mkEntry (Some "bug") (Some "00ff00") None])
              (of_pages [[mkLabel "bug" "ff0000" None; mkLabel "bug" "0000ff" None]]))))).
Proof.
  apply (update_mode_one_call_per_name accept_all "update" "labels.json"
           (FileArray [mkEntry (Some "bug") (Some "00ff00") None])
           (of_pages [[mkLabel "bug" "ff0000" None; mkLabel "bug" "0000ff" None]])
           eq_refl).
Defined.

Lemma create_in_pass_or_rest (labels : list repo_label) (m m' : LabelMap.t) (c : call) :
  is_create c = true ->
  In c (calls (fst (page_plan "update" labels m)) ++ map create_call m') ->
  In c (map create_call m').
Proof.
  intros Hc Hin. apply in_app_or in Hin as [Hin|Hin]; [|exact Hin].
  apply (pass_sends_no_create "update") in Hin. congruence.
Qed.

(** X7: in update mode a create call never targets a listed name: the names
    created are manifest names that the listing did not show, and a run that
    succeeds has created every such name with the values of the map. *)
Theorem update_mode_creates_only_unlisted
    (service : list call -> call -> option string)
    (mode_input manifestPath : string) (fileContent : list manifest_entry)
    (iterator : listing) (m : LabelMap.t) :
  mode_of mode_input = "update" ->
  build_map fileContent LabelMap.empty = inr m ->
  let o := run service mode_input manifestPath (FileArray fileContent) iterator in
  (forall c, In c (attempted (trace o)) -> is_create c = true ->
             In (call_name c) (LabelMap.keys m)
             /\ ~ In (call_name c) (map name (listed iterator)))
  /\ (failed o = None ->
      forall n fl, LabelMap.get n m = Some fl ->
                   ~ In n (map name (listed iterator)) ->
                   In (createLabel n (fl_color fl) (fl_description fl))
                      (applied (trace o))).
Proof.
  intros Hmode Hm o. pose proof (build_map_NoDup _ _ Hm) as Hnd. split.
  - intros c Hc Hcreate. apply attempted_planned in Hc.
    assert (Hin : In c (map create_call (delete_listed m (listed iterator)))).
    { destruct (plan_update mode_input manifestPath fileContent iterator m Hmode Hm)
        as [[Hp _] | [Hp _]]; rewrite Hp in Hc.
      - eapply create_in_pass_or_rest; eassumption.
      - apply (pass_sends_no_create "update") in Hc. congruence. }
    apply (in_map call_name) in Hin. rewrite call_name_create in Hin.
    now apply delete_listed_keys in Hin.
  - intros Hok n fl Hget Hno.
    destruct (run_success service mode_input manifestPath (FileArray fileContent)
                iterator Hok) as [Htr Hend].
    fold o in Htr. rewrite Htr, applied_events.
    destruct (plan_update mode_input manifestPath fileContent iterator m Hmode Hm)
      as [[Hp _] | [_ Hp]]; [|contradiction].
    rewrite Hp. apply in_or_app. right.
    assert (Hk : In n (LabelMap.keys (delete_listed m (listed iterator)))).
    { apply delete_listed_keys; [exact Hnd|]. split; [|exact Hno].
      apply LabelMapFacts.get_some_in in Hget. apply (in_map fst) in Hget. exact Hget. }
    apply in_map_iff in Hk as ([k v] & Hkn & Hin). simpl in Hkn. subst k.
    assert (Hv : v = fl).
    { apply (subsequence_in _ _ _ (subsequence_delete_listed _ _)) in Hin.
      apply (LabelMapFacts.in_get _ _ _ Hnd) in Hin. congruence. }
    subst v. apply in_map_iff. exists (n, fl). auto.
Qed.

(** The manifest names bug and feature, the listing shows bug: only feature
    is created. *)
Lemma update_mode_creates_only_unlisted_witness :
  let o := run accept_all "update" "labels.json"
             (FileArray [mkEntry (Some "bug") (Some "00ff00") None;
                         mkEntry (Some "feature") (Some "0000ff") None])
             (of_pages [[mkLabel "bug" "ff0000" None]]) in
  In (createLabel "feature" "0000ff" "") (applied (trace o))
  /\ forall c, In c (attempted (trace o)) -> is_create c = true -> call_name c <> "bug".
Proof.
  intros o.
  destruct (update_mode_creates_only_unlisted accept_all "update" "labels.json"
              [mkEntry (Some "bug") (Some "00ff00") None;
               mkEntry (Some "feature") (Some "0000ff") None]
              (of_pages [[mkLabel "bug" "ff0000" None]])
              [("bug", mkFileLabel "00ff00" ""); ("feature", mkFileLabel "0000ff" "")]
              eq_refl eq_refl) as [H1 H2].
  split.
  - apply (H2 eq_refl "feature" (mkFileLabel "0000ff" "") eq_refl).
    simpl. intuition discriminate.
  - intros c Hc Hcreate E. destruct (H1 c Hc Hcreate) as [_ Hno].
    apply Hno. rewrite E. simpl. tauto.
Defined.

Lemma file_label_eta (fl : file_label) :
  mkFileLabel (fl_color fl) (fl_description fl) = fl.
Proof. now destruct fl. Qed.

Lemma create_call_value (m m' : LabelMap.t) (n col d : string) :
  NoDup (LabelMap.keys m) ->
  subsequence m' m ->
  In (createLabel n col d) (map create_call m') ->
  LabelMap.get n m = Some (mkFileLabel col d).
Proof.
  intros Hnd Hsub Hin. apply in_map_iff in Hin as ([k v] & Hc & Hin).
  injection Hc as <- <- <-. simpl. rewrite file_label_eta.
  apply (LabelMapFacts.in_get _ _ _ Hnd). eapply subsequence_in; eassumption.
Qed.

(** X8: every call a run sends is accounted for by the mode, the listing and
    the map.  A create or update call carries, for its name, exactly the color
    and description the map holds for that name; an update is only sent in
    update mode and a delete only in a mode that is neither add nor update,
    both only for names the listing showed. *)
Theorem calls_carry_manifest_values
    (service : list call -> call -> option string)
    (mode_input manifestPath : string) (fileContent : list manifest_entry)
    (iterator : listing) (m : LabelMap.t) (c : call) :
  build_map fileContent LabelMap.empty = inr m ->
  In c (attempted (trace (run service mode_input manifestPath
                            (FileArray fileContent) iterator))) ->
  match c with
  | createLabel n col d => LabelMap.get n m = Some (mkFileLabel col d)
  | updateLabel n col d =>
      mode_of mode_input = "update"
      /\ In n (map name (listed iterator))
      /\ LabelMap.get n m = Some (mkFileLabel col d)
  | deleteLabel n =>
      mode_of mode_input <> "add"
      /\ mode_of mode_input <> "update"
      /\ In n (map name (listed iterator))
  end.
Proof.
  intros Hm Hc. pose proof (build_map_NoDup _ _ Hm) as Hnd.
  apply attempted_planned in Hc.
  destruct (String.eqb_spec (mode_of mode_input) "add") as [Ha|Ha].
  - (* add mode *)
    unfold plan in Hc. rewrite Hm, Ha in Hc. simpl in Hc.
    rewrite calls_create_plan in Hc.
    destruct c as [n col d|n col d|n];
      try (apply in_map_iff in Hc as (entry & Hc & _); discriminate).
    eapply create_call_value; eauto using subsequence_refl.
  - rewrite (plan_listing _ _ _ _ _ Ha Hm) in Hc.
    assert (Hcalls : In c (calls (fst (page_plan (mode_of mode_input)
                                         (listed iterator) m)))
                     \/ In c (map create_call
                                (snd (page_plan (mode_of mode_input)
                                        (listed iterator) m)))).
    { destruct (listing_error iterator); cbn [fst] in Hc; [now left|].
      rewrite calls_app, calls_create_plan in Hc. now apply in_app_or. }
    clear Hc.
    destruct (String.eqb_spec (mode_of mode_input) "update") as [Hu|Hu].
    + (* update mode *)
      rewrite Hu in Hcalls. destruct Hcalls as [Hc|Hc].
      * apply page_plan_update_calls in Hc as (l & fl & Hl & Hin & ->).
        split; [exact Hu|]. split; [now apply in_map|].
        rewrite file_label_eta. now apply LabelMapFacts.in_get.
      * rewrite page_plan_update_map in Hc.
        destruct c as [n col d|n col d|n];
          try (apply in_map_iff in Hc as (entry & Hc & _); discriminate).
        eapply create_call_value; eauto using subsequence_delete_listed.
    + (* delete mode *)
      assert (Eu : (mode_of mode_input =? "update") = false)
        by (now apply String.eqb_neq).
      rewrite (page_plan_delete _ _ _ Eu) in Hcalls. cbn [fst snd] in Hcalls.
      rewrite calls_delete in Hcalls. destruct Hcalls as [Hc|Hc].
      * apply in_map_iff in Hc as (l & <- & Hl). simpl.
        split; [exact Ha|]. split; [exact Hu|]. now apply in_map.
      * destruct c as [n col d|n col d|n];
          try (apply in_map_iff in Hc as (entry & Hc & _); discriminate).
        eapply create_call_value; eauto using subsequence_refl.
Qed.

(** The manifest names bug twice; the update sent for bug carries the color
    of the later entry. *)
Lemma calls_carry_manifest_values_witness :
  mode_of "update" = "update"
  /\ In "bug" (map name (listed (of_pages [[mkLabel "bug" "ff0000" None]])))
  /\ LabelMap.get "bug" [("bug", mkFileLabel "0000ff" "")]
     = Some (mkFileLabel "0000ff" "").
Proof.
  apply (calls_carry_manifest_values accept_all "update" "labels.json"
           [mkEntry (Some "bug") (Some "00ff00") None;
            mkEntry (Some "bug") (Some "0000ff") None]
           (of_pages [[mkLabel "bug" "ff0000" None]])
           [("bug", mkFileLabel "0000ff" "")]
           (updateLabel "bug" "0000ff" "") eq_refl).
  simpl. tauto.
Defined.

(** ** The repository after a run *)

Lemma apply_deletes_all (labels repository : list repo_label) :
  (forall x, In x repository -> In (name x) (map name labels)) ->
  apply_calls (map delete_call labels) repository = [].
Proof.
  revert repository. induction labels as [|l ls IH]; intros repository H; simpl.
  - destruct repository as [|x r]; [reflexivity|].
    destruct (H x (or_introl eq_refl)).
  - apply IH. intros x Hx. apply filter_In in Hx as [Hx Hne].
    destruct (H x Hx) as [E|Hin]; [|exact Hin].
    simpl in E. rewrite E, String.eqb_refl in Hne. discriminate.
Qed.

(** X9: a successful run in a mode that is neither add nor update leaves in
    the repository exactly the labels of the manifest, one per name, in the
    order of the map, each with the color and description of the map;
    whatever was there before is gone, provided the listing showed it. *)
Theorem delete_mode_resets_repository
    (service : list call -> call -> option string)
    (mode_input manifestPath : string) (fileContent : list manifest_entry)
    (pages : list (list repo_label)) (m : LabelMap.t) (repository : list repo_label) :
  mode_of mode_input <> "add" ->
  mode_of mode_input <> "update" ->
  build_map fileContent LabelMap.empty = inr m ->
  (forall x, In x repository -> In (name x) (map name (concat pages))) ->
  let o := run service mode_input manifestPath (FileArray fileContent) (of_pages pages) in
  failed o = None ->
  apply_calls (applied (trace o)) repository = map created_label m.
Proof.
  intros Ha Hu Hm Hrepo o Hok.
  destruct (run_success service mode_input manifestPath (FileArray fileContent)
              (of_pages pages) Hok) as [Htr _].
  fold o in Htr. rewrite Htr, applied_events.
  rewrite (plan_other _ _ _ _ Ha Hu), (plan_delete _ _ _ _ Hm). cbn [fst].
  rewrite calls_app, calls_delete, calls_create_plan, apply_calls_app.
  rewrite (apply_deletes_all _ _ Hrepo), apply_calls_creates. reflexivity.
Qed.

(** Two labels listed, one manifest entry: the repository ends with that
    entry alone. *)
Lemma delete_mode_resets_repository_witness :
  apply_calls
    (applied (trace (run accept_all "delete" "labels.json"
       (FileArray [mkEntry (Some "feature") (Some "00ff00") None])
       (of_pages [[mkLabel "bug" "ff0000" None]; [mkLabel "wontfix" "ffffff" None]]))))
    [mkLabel "bug" "ff0000" None; mkLabel "wontfix" "ffffff" None]
  = [mkLabel "feature" "00ff00" (Some "")].
Proof.
  apply (delete_mode_resets_repository accept_all "delete" "labels.json"
           [mkEntry (Some "feature") (Some "00ff00") None]
           [[mkLabel "bug" "ff0000" None]; [mkLabel "wontfix" "ffffff" None]]
           [("feature", mkFileLabel "00ff00" "")]
           [mkLabel "bug" "ff0000" None; mkLabel "wontfix" "ffffff" None]).
  - discriminate.
  - discriminate.
  - reflexivity.
  - intros x [<-|[<-|[]]]; simpl; tauto.
  - reflexivity.
Defined.

(** The repository after a successful run in update mode. *)
Lemma after_update_run (service : list call -> call -> option string)
    (mode_input manifestPath : string) (fileContent : list manifest_entry)
    (iterator : listing) (m : LabelMap.t) :
  mode_of mode_input = "update" ->
  build_map fileContent LabelMap.empty = inr m ->
  failed (run service mode_input manifestPath (FileArray fileContent) iterator) = None ->
  apply_calls
    (applied (trace (run service mode_input manifestPath (FileArray fileContent)
                       iterator)))
    (listed iterator)
  = map (touch_all (calls (fst (page_plan "update" (listed iterator) m))))
      (listed iterator)
    ++ map created_label (delete_listed m (listed iterator)).
Proof.
  intros Hmode Hm Hok.
  destruct (run_success service mode_input manifestPath (FileArray fileContent)
              iterator Hok) as [Htr Hend].
  rewrite Htr, applied_events.
  destruct (plan_update mode_input manifestPath fileContent iterator m Hmode Hm)
    as [[Hp _] | [_ Hp]]; [|contradiction].
  rewrite Hp, apply_calls_app, apply_calls_creates.
  rewrite apply_calls_updates; [reflexivity|].
  intros c Hc. apply page_plan_update_calls in Hc as (l & fl & _ & _ & ->).
  reflexivity.
Qed.

(** X10: after a successful run in update mode on a listing with distinct
    names, the repository agrees with the manifest: every name of the map is
    the name of a label, every label whose name is in the map has the color
    and the description of the map, and every listed name is still there. *)
Theorem update_mode_converges
    (service : list call -> call -> option string)
    (mode_input manifestPath : string) (fileContent : list manifest_entry)
    (iterator : listing) (m : LabelMap.t) :
  mode_of mode_input = "update" ->
  build_map fileContent LabelMap.empty = inr m ->
  NoDup (map name (listed iterator)) ->
  let o := run service mode_input manifestPath (FileArray fileContent) iterator in
  failed o = None ->
  let after := apply_calls (applied (trace o)) (listed iterator) in
  (forall n, In n (LabelMap.keys m) -> In n (map name after))
  /\ (forall x fl, In x after -> LabelMap.get (name x) m = Some fl ->
                   color x = fl_color fl
                   /\ normalized (description x) = fl_description fl)
  /\ (forall l, In l (listed iterator) -> In (name l) (map name after))
  /\ NoDup (map name after).
Proof.
  intros Hmode Hm Hnames o Hok after.
  pose proof (build_map_NoDup _ _ Hm) as Hnd.
  pose proof (after_update_run service _ _ _ _ _ Hmode Hm Hok) as Hafter.
  fold o in Hafter. fold after in Hafter. clearbody after. subst after.
  destruct (settled_after_run m (listed iterator) Hnd Hnames) as [H1 H2].
  assert (Htouched : map name
                       (map (touch_all (calls (fst (page_plan "update"
                                                    (listed iterator) m))))
                          (listed iterator))
                     = map name (listed iterator)).
  { rewrite map_map. apply map_ext. intros l. apply touch_all_name. }
  split; [exact H2|]. split; [|split].
  - intros x fl Hx Hget. specialize (H1 x fl Hx Hget).
    apply differs_false in H1. unfold fields_differ in H1.
    destruct (string_dec (color x) (fl_color fl)) as [Hc|Hc]; [|tauto].
    destruct (string_dec (normalized (description x)) (fl_description fl)) as [Hd|Hd];
      tauto.
  - intros l Hl. rewrite map_app, Htouched. apply in_or_app. left. now apply in_map.
  - rewrite map_app, Htouched. apply NoDup_app; [exact Hnames| |].
    + rewrite map_map. simpl.
      change (map (fun x : string * file_label => fst x)
                (delete_listed m (listed iterator)))
        with (LabelMap.keys (delete_listed m (listed iterator))).
      pose proof (update_names_NoDup (listed iterator) m Hnd) as H.
      apply NoDup_app_remove_l in H. exact H.
    + intros n Hn Hk. rewrite map_map in Hk. simpl in Hk.
      change (map (fun x : string * file_label => fst x)
                (delete_listed m (listed iterator)))
        with (LabelMap.keys (delete_listed m (listed iterator))) in Hk.
      apply delete_listed_keys in Hk; [|exact Hnd]. tauto.
Qed.

(** bug is recolored, feature is created, wontfix stays. *)
Lemma update_mode_converges_witness :
  apply_calls
    (applied (trace (run accept_all "update" "labels.json"
       (FileArray [mkEntry (Some "bug") (Some "00ff00") None;
                   mkEntry (Some "feature") (Some "0000ff") None])
       (of_pages [[mkLabel "bug" "ff0000" None; mkLabel "wontfix" "ffffff" None]]))))
    [mkLabel "bug" "ff0000" None; mkLabel "wontfix" "ffffff" None]
  = [mkLabel "bug" "00ff00" (Some ""); mkLabel "wontfix" "ffffff" None;
     mkLabel "feature" "0000ff" (Some "")]
  /\ In "feature"
       (map name
          (apply_calls
             (applied (trace (run accept_all "update" "labels.json"
                (FileArray [mkEntry (Some "bug") (Some "00ff00") None;
                            mkEntry (Some "feature") (Some "0000ff") None])
                (of_pages [[mkLabel "bug" "ff0000" None;
                            mkLabel "wontfix" "ffffff" None]]))))
             [mkLabel "bug" "ff0000" None; mkLabel "wontfix" "ffffff" None])).
Proof.
  split; [reflexivity|].
  destruct (update_mode_converges accept_all "update" "labels.json"
              [mkEntry (Some "bug") (Some "00ff00") None;
               mkEntry (Some "feature") (Some "0000ff") None]
              (of_pages [[mkLabel "bug" "ff0000" None; mkLabel "wontfix" "ffffff" None]])
              [("bug", mkFileLabel "00ff00" ""); ("feature", mkFileLabel "0000ff" "")]
              eq_refl eq_refl) as (H & _).
  - simpl. repeat constructor; simpl; intuition discriminate.
  - reflexivity.
  - apply H. simpl. tauto.
Defined.

(** ** The order of the map *)

Lemma filter_filter_implied {A : Type} (P Q : A -> bool) (l : list A) :
  (forall x, P x = true -> Q x = true) ->
  filter P (filter Q l) = filter P l.
Proof.
  intros H. induction l as [|x l IH]; simpl; [reflexivity|].
  destruct (Q x) eqn:Eq; simpl.
  - now rewrite IH.
  - destruct (P x) eqn:Ep; [|exact IH].
    rewrite (H x Ep) in Eq. discriminate.
Qed.

Lemma filter_filter_and {A : Type} (P Q : A -> bool) (l : list A) :
  filter P (filter Q l) = filter (fun x => Q x && P x) l.
Proof.
  induction l as [|x l IH]; simpl; [reflexivity|].
  destruct (Q x); simpl; [|exact IH].
  destruct (P x); now rewrite IH.
Qed.

Lemma is_key_has (m : LabelMap.t) (n : string) : is_key m n = LabelMap.has n m.
Proof.
  unfold is_key, LabelMap.has. induction m as [|[k v] r IH]; simpl; [reflexivity|].
  rewrite (String.eqb_sym n k). destruct (k =? n); simpl; [reflexivity|exact IH].
Qed.

Lemma keys_fold_set (fileContent : list manifest_entry) (m : LabelMap.t) :
  forallb valid_entry fileContent = true ->
  LabelMap.keys (fold_left set_entry fileContent m)
  = LabelMap.keys m
    ++ filter (fun n => negb (is_key m n)) (first_occurrences (entry_names fileContent)).
Proof.
  revert m. induction fileContent as [|e rest IH]; intros m Hv.
  - simpl. now rewrite app_nil_r.
  - simpl in Hv. apply andb_true_iff in Hv as [He Hv].
    unfold valid_entry in He. apply andb_true_iff in He as [Hn _].
    cbn [fold_left]. rewrite (IH _ Hv). unfold set_entry at 1 2.
    unfold entry_names. cbn [flat_map]. fold (entry_names rest).
    destruct (me_name e) as [n|] eqn:En; [|discriminate].
    rewrite (truthy_js_or n Hn). cbn [app first_occurrences filter].
    rewrite LabelMapFacts.keys_set, <- is_key_has.
    destruct (is_key m n) eqn:Ek; cbn [negb].
    + f_equal. rewrite (filter_ext (fun n0 => negb (is_key (LabelMap.set n (entry_value e) m) n0))
                          (fun n0 => negb (is_key m n0))).
      * symmetry. apply filter_filter_implied. intros x Hx.
        destruct (String.eqb_spec x n) as [->|]; [|reflexivity].
        rewrite Ek in Hx. discriminate.
      * intros x. unfold is_key. rewrite LabelMapFacts.keys_set, <- is_key_has, Ek.
        reflexivity.
    + rewrite <- app_assoc. cbn [app]. f_equal. f_equal.
      rewrite filter_filter_and. apply filter_ext. intros x.
      unfold is_key at 1. rewrite LabelMapFacts.keys_set, <- is_key_has, Ek.
      rewrite existsb_app. simpl. fold (is_key m x).
      rewrite orb_false_r, negb_orb. apply andb_comm.
Qed.

(** X11: the map lists each manifest name once, at the place of its first
    occurrence in the manifest (a later entry of the same name overwrites the
    value in place); so a run in add mode against a service that accepts
    every call creates the manifest names in order of first occurrence. *)
Theorem names_in_order_of_first_occurrence
    (manifestPath : string) (fileContent : list manifest_entry)
    (iterator : listing) (m : LabelMap.t) :
  build_map fileContent LabelMap.empty = inr m ->
  LabelMap.keys m = first_occurrences (entry_names fileContent)
  /\ map call_name
       (applied (trace (run accept_all "add" manifestPath (FileArray fileContent)
                          iterator)))
     = first_occurrences (entry_names fileContent).
Proof.
  intros Hm.
  assert (Hk : LabelMap.keys m = first_occurrences (entry_names fileContent)).
  { pose proof (build_map_valid_inv _ _ Hm) as Hv.
    rewrite build_map_valid in Hm by assumption. injection Hm as <-.
    rewrite keys_fold_set by assumption. simpl.
    apply forallb_filter_id, forallb_forall. reflexivity. }
  split; [exact Hk|].
  destruct (run_accept_all "add" manifestPath (FileArray fileContent) iterator)
    as [-> _].
  rewrite applied_events, (plan_add _ _ _ _ Hm). simpl.
  now rewrite calls_create_plan, call_name_create.
Qed.

(** bug, feature, bug again: created in the order bug, feature. *)
Lemma names_in_order_of_first_occurrence_witness :
  map call_name
    (applied (trace (run accept_all "add" "labels.json"
       (FileArray [mkEntry (Some "bug") (Some "ff0000") None;
                   mkEntry (Some "feature") (Some "00ff00") None;
                   mkEntry (Some "bug") (Some "0000ff") None])
       ListEnd)))
  = ["bug"; "feature"].
Proof.
  apply (names_in_order_of_first_occurrence "labels.json"
           [mkEntry (Some "bug") (Some "ff0000") None;
            mkEntry (Some "feature") (Some "00ff00") None;
            mkEntry (Some "bug") (Some "0000ff") None]
           ListEnd
           [("bug", mkFileLabel "0000ff" ""); ("feature", mkFileLabel "00ff00" "")]
           eq_refl).
Defined.

(** ** The debug notices *)

Lemma noticed_app (pending : option string) (t1 t2 : list event) :
  noticed_from pending t1 -> noticed_from None t2 -> noticed_from pending (t1 ++ t2).
Proof.
  revert pending. induction t1 as [|e t1 IH]; intros pending H1 H2; simpl in *.
  - now subst pending.
  - destruct pending as [note|], e as [c|c msg|msg]; try contradiction; auto.
    destruct H1 as [-> H1]. auto.
Qed.

Lemma noticed_label_plan (mode : string) (l : repo_label) (m : LabelMap.t) :
  noticed_from None (map event_of (fst (label_plan mode l m))).
Proof.
  unfold label_plan. destruct (mode =? "update"); [|simpl; auto].
  destruct (LabelMap.get (name l) m) as [fl|]; [|reflexivity].
  destruct (differs l fl); simpl; auto.
Qed.

Lemma noticed_page_plan (mode : string) (labels : list repo_label) (m : LabelMap.t) :
  noticed_from None (map event_of (fst (page_plan mode labels m))).
Proof.
  revert m. induction labels as [|l ls IH]; intros m; [reflexivity|].
  rewrite page_plan_cons. cbn [fst]. rewrite map_app.
  apply noticed_app; [apply noticed_label_plan|apply IH].
Qed.

Lemma noticed_create_plan (m : LabelMap.t) :
  noticed_from None (map event_of (create_plan m)).
Proof. induction m as [|[k v] r IH]; simpl; auto. Qed.

Lemma noticed_plan (mode_input manifestPath : string) (file : manifest_file)
    (iterator : listing) :
  noticed_from None (map event_of (fst (plan mode_input manifestPath file iterator))).
Proof.
  unfold plan. destruct file as [| message | | fileContent]; try reflexivity.
  destruct (build_map fileContent LabelMap.empty) as [e|m]; [reflexivity|].
  destruct (negb (mode_of mode_input =? "add")); [|apply noticed_create_plan].
  destruct (listing_plan_listed (mode_of mode_input) iterator m) as [Hs _].
  destruct (listing_plan (mode_of mode_input) iterator m) as [s [e|m']];
    simpl in Hs; subst s; cbn [fst].
  - apply noticed_page_plan.
  - rewrite map_app. apply noticed_app;
      [apply noticed_page_plan|apply noticed_create_plan].
Qed.

Lemma noticed_cut (pending : option string) (t post : list event) (c : call)
    (message : string) :
  noticed_from pending (t ++ Applied c :: post) ->
  noticed_from pending (t ++ [Rejected c message]).
Proof.
  revert pending. induction t as [|e t IH]; intros pending H; simpl in *.
  - destruct pending; [contradiction|reflexivity].
  - destruct pending as [note|], e as [c'|c' msg|msg]; try contradiction; auto.
    destruct H as [-> H]. auto.
Qed.

Lemma noticed_at (pending : option string) (pre post : list event) (c : call)
    (note : string) :
  noticed_from pending (pre ++ Applied c :: post) ->
  notice_of c = Some note ->
  exists post', post = Debug note :: post'.
Proof.
  revert pending. induction pre as [|e pre IH]; intros pending H Hn; simpl in *.
  - destruct pending; [contradiction|]. rewrite Hn in H.
    destruct post as [|[c'|c' msg|msg] post]; simpl in H; try contradiction.
    + discriminate.
    + destruct H as [-> _]. eauto.
  - destruct pending as [note'|], e as [c'|c' msg|msg]; try contradiction; eauto.
    destruct H as [_ H]. eauto.
Qed.

(** X12: in the trace of any run, every applied create call is directly
    followed by the notice that the label has been created and every applied
    update call by the notice that it has been updated. *)
Theorem applied_call_is_noticed
    (service : list call -> call -> option string)
    (mode_input manifestPath : string) (file : manifest_file) (iterator : listing)
    (pre post : list event) (c : call) :
  trace (run service mode_input manifestPath file iterator) = pre ++ Applied c :: post ->
  match c with
  | createLabel n _ _ => exists post', post = Debug (created_note n) :: post'
  | updateLabel n _ _ => exists post', post = Debug (updated_note n) :: post'
  | deleteLabel _ => True
  end.
Proof.
  intros Htr.
  assert (Hnoticed : noticed_from None
                       (trace (run service mode_input manifestPath file iterator))).
  { pose proof (noticed_plan mode_input manifestPath file iterator) as Hplan.
    destruct (run_cases service mode_input manifestPath file iterator)
      as [[H _] | (pre' & c' & post' & message & Hp & _ & H & _)]; rewrite H.
    - exact Hplan.
    - rewrite Hp, map_app in Hplan. simpl in Hplan.
      eapply noticed_cut, Hplan. }
  rewrite Htr in Hnoticed.
  destruct c as [n col d|n col d|n]; [| |exact I];
    eapply noticed_at; try exact Hnoticed; reflexivity.
Qed.

(** The create of feature is directly followed by its notice. *)
Lemma applied_call_is_noticed_witness :
  exists post',
    [Debug (created_note "feature")] = Debug (created_note "feature") :: post'.
Proof.
  apply (applied_call_is_noticed accept_all "add" "labels.json"
           (FileArray [mkEntry (Some "feature") (Some "00ff00") None]) ListEnd
           [] [Debug (created_note "feature")] (createLabel "feature" "00ff00" "")).
  reflexivity.
Defined.

(** ** The empty manifest *)

Lemma page_plan_empty_map (labels : list repo_label) :
  page_plan "update" labels LabelMap.empty = ([], LabelMap.empty).
Proof.
  induction labels as [|l ls IH]; [reflexivity|].
  rewrite page_plan_cons, label_plan_update_none by reflexivity.
  cbn [fst snd]. now rewrite IH.
Qed.

(** X13: with an empty manifest array a run in add mode does nothing, a run
    in update mode does nothing whatever the listing shows (no call, no
    notice) and succeeds when the listing ends without error, and a run in
    delete mode against a service that accepts every call deletes every
    listed label and creates nothing. *)
Theorem empty_manifest
    (service : list call -> call -> option string)
    (mode_input manifestPath : string) (iterator : listing)
    (pages : list (list repo_label)) :
  run service "add" manifestPath (FileArray []) iterator = mkOutcome None []
  /\ (mode_of mode_input = "update" ->
      trace (run service mode_input manifestPath (FileArray []) iterator) = []
      /\ run service mode_input manifestPath (FileArray []) (of_pages pages)
         = mkOutcome None [])
  /\ run accept_all "delete" manifestPath (FileArray []) (of_pages pages)
     = mkOutcome None (map (fun l => Applied (delete_call l)) (concat pages)).
Proof.
  split; [reflexivity|]. split.
  - intros Hmode.
    assert (Ha : mode_of mode_input <> "add") by (rewrite Hmode; discriminate).
    assert (Hempty : forall it,
              trace (run service mode_input manifestPath (FileArray []) it) = []
              /\ (listing_error it = None ->
                  failed (run service mode_input manifestPath (FileArray []) it)
                  = None)).
    { intros it.
      pose proof (plan_listing mode_input manifestPath [] it LabelMap.empty Ha eq_refl)
        as Hp.
      rewrite Hmode, page_plan_empty_map in Hp. cbn [fst snd app create_plan flat_map] in Hp.
      destruct (run_cases service mode_input manifestPath (FileArray []) it)
        as [[Htr Hf] | (pre & c & post & message & Hpre & _)].
      - rewrite Htr, Hf, Hp. split; [now destruct (listing_error it)|].
        now intros ->.
      - rewrite Hp in Hpre. exfalso.
        destruct (listing_error it); destruct pre; discriminate. }
    split; [apply Hempty|].
    rewrite (outcome_eta (run service mode_input manifestPath (FileArray [])
                            (of_pages pages))).
    destruct (Hempty (of_pages pages)) as [-> Hf]. rewrite Hf; [reflexivity|].
    clear. induction pages as [|p ps IH]; [reflexivity|exact IH].
  - rewrite (outcome_eta (run accept_all "delete" manifestPath (FileArray [])
                            (of_pages pages))).
    destruct (run_accept_all "delete" manifestPath (FileArray []) (of_pages pages))
      as [-> ->].
    rewrite (plan_delete manifestPath [] pages LabelMap.empty eq_refl).
    cbn [fst snd message_of create_plan flat_map]. rewrite app_nil_r, map_map.
    reflexivity.
Qed.
